(** * LuxTrack: a shallow embedding of the Go backend and of the React
      transaction form, with the properties the specification states.

    The backend (Fiber + database/sql + Postgres) is embedded function by
    function.  Its state is the relational store, with the schema of
    migration 001 where the statements of the program meet it; every
    round trip to the engine may fail, which a fault schedule carried by
    the world makes explicit.  Third-party packages (bcrypt, golang-jwt,
    uuid) are taken as an interface, [Vendor]; nothing is assumed about
    its implementations. *)

From Stdlib Require Import ZArith List String Ascii Bool Lia.
From Stdlib Require Import Sorting.Sorted Sorting.Permutation.
Import ListNotations.
Open Scope string_scope.
Open Scope Z_scope.

Set Implicit Arguments.
Set Warnings "-register-all".

(* ================================================================== *)
(** * Go values: errors and results *)
(* ================================================================== *)

(** A Go [error] is modelled by its message, [err.Error()]. *)
Definition error := string.

(** A Go pair [(value, err)], of which one side is meaningful. *)
Inductive result (A : Type) : Type :=
| Ok (a : A)
| Err (e : error).
Arguments Ok {A} a.
Arguments Err {A} e.

Definition is_ok {A} (r : result A) : bool :=
  match r with Ok _ => true | Err _ => false end.

(** [time.Time] is an instant in nanoseconds since the epoch;
    [*time.Time] is an [option]. *)
Definition Time := Z.
Definition second : Z := 1000000000.
Definition hour : Z := 3600 * second.

(** [t.Unix()]: whole seconds since the epoch. *)
Definition Unix (t : Time) : Z := t / second.

(** The bytes of a string in reverse. *)
Definition string_rev (s : string) : string :=
  string_of_list_ascii (rev (list_ascii_of_string s)).

(* ================================================================== *)
(** * Package strings *)
(* ================================================================== *)

Module strings.

Definition HasPrefix (s p : string) : bool := String.prefix p s.

(** [TrimPrefix s p] drops a leading [p]; [s] is returned as it is
    when it does not start with [p]. *)
Definition TrimPrefix (s p : string) : string :=
  if HasPrefix s p
  then substring (String.length p) (String.length s - String.length p) s
  else s.

(** A Go string is its bytes, here one [ascii] each; text is UTF-8.
    [unicode.IsSpace] holds of the runes U+0009 to U+000D, U+0020,
    U+0085, U+00A0, U+1680, U+2000 to U+200A, U+2028, U+2029, U+202F,
    U+205F and U+3000.  They are told by their encodings, of one, two
    or three bytes; bytes that are no valid encoding decode to the
    rune U+FFFD, which is no space. *)
Definition isSpace (c : ascii) : bool :=
  let n := nat_of_ascii c in
  ((9 <=? n) && (n <=? 13))%nat || (n =? 32)%nat.

(** U+0085 is C2 85 and U+00A0 is C2 A0. *)
Definition isSpace2 (b1 b2 : ascii) : bool :=
  let m := nat_of_ascii b1 in
  let n := nat_of_ascii b2 in
  ((m =? 194) && ((n =? 133) || (n =? 160)))%nat.

(** U+1680 is E1 9A 80; U+2000 to U+200A are E2 80 80 to E2 80 8A;
    U+2028, U+2029 and U+202F are E2 80 A8, E2 80 A9 and E2 80 AF;
    U+205F is E2 81 9F; U+3000 is E3 80 80. *)
Definition isSpace3 (b1 b2 b3 : ascii) : bool :=
  let m := nat_of_ascii b1 in
  let n := nat_of_ascii b2 in
  let o := nat_of_ascii b3 in
  ((m =? 225) && (n =? 154) && (o =? 128)
   || (m =? 226) && (n =? 128)
      && ((128 <=? o) && (o <=? 138) || (o =? 168) || (o =? 169) || (o =? 175))
   || (m =? 226) && (n =? 129) && (o =? 159)
   || (m =? 227) && (n =? 128) && (o =? 128))%nat.

(** [TrimLeftFunc s unicode.IsSpace]: the runes are decoded from the
    left and dropped while they are spaces. *)
Fixpoint trimLeft (s : string) : string :=
  match s with
  | EmptyString => EmptyString
  | String b1 s1 =>
      if isSpace b1 then trimLeft s1
      else
        match s1 with
        | EmptyString => s
        | String b2 s2 =>
            if isSpace2 b1 b2 then trimLeft s2
            else
              match s2 with
              | EmptyString => s
              | String b3 s3 => if isSpace3 b1 b2 b3 then trimLeft s3 else s
              end
        end
  end.

(** The same from the other end, on the bytes in reverse: the last rune
    is a space when the string ends with the encoding of one. *)
Fixpoint trimReversed (s : string) : string :=
  match s with
  | EmptyString => EmptyString
  | String b1 s1 =>
      if isSpace b1 then trimReversed s1
      else
        match s1 with
        | EmptyString => s
        | String b2 s2 =>
            if isSpace2 b2 b1 then trimReversed s2
            else
              match s2 with
              | EmptyString => s
              | String b3 s3 =>
                  if isSpace3 b3 b2 b1 then trimReversed s3 else s
              end
        end
  end.

(** [TrimRightFunc s unicode.IsSpace]. *)
Definition trimRight (s : string) : string :=
  string_rev (trimReversed (string_rev s)).

(** [strings.TrimSpace]: its fast path for ASCII gives what trimming by
    [unicode.IsSpace] at both ends gives. *)
Definition TrimSpace (s : string) : string := trimRight (trimLeft s).

End strings.

(* ================================================================== *)
(** * JSON documents *)
(* ================================================================== *)

(** What [encoding/json] writes.  [JTime t] stands for the RFC 3339 text
    of the instant [t]; an object keeps its members in the order they
    are written. *)
Inductive json : Type :=
| JNull
| JNum (n : Z)
| JStr (s : string)
| JTime (t : Time)
| JArr (items : list json)
| JObj (members : list (string * json)).

(** [fiber.Map]: a Go map, which the encoder writes with its keys in
    increasing order.  The literals below are written in that order. *)
Definition fiberMap (members : list (string * json)) : json := JObj members.

(** Every member name used anywhere in a document. *)
Fixpoint json_keys (j : json) : list string :=
  match j with
  | JArr items => flat_map json_keys items
  | JObj members =>
      (fix go (ms : list (string * json)) : list string :=
         match ms with
         | [] => []
         | (k, v) :: ms' => k :: json_keys v ++ go ms'
         end) members
  | _ => []
  end.

(* ================================================================== *)
(** * HTTP with Fiber *)
(* ================================================================== *)

Definition StatusOK : Z := 200.
Definition StatusCreated : Z := 201.
Definition StatusBadRequest : Z := 400.
Definition StatusUnauthorized : Z := 401.
Definition StatusNotFound : Z := 404.
Definition StatusInternalServerError : Z := 500.

Record Response : Type := mkResponse {
  resp_status : Z;
  resp_body : json
}.

(** What a handler leaves behind: a response, or a panic (a failed type
    assertion) that the recover middleware turns into an error. *)
Inductive Outcome : Type :=
| Respond (r : Response)
| Panic (msg : string).

(** The part of [*fiber.Ctx] the handlers read and write. *)
Record Ctx : Type := mkCtx {
  ctx_headers : list (string * string);
  ctx_params : list (string * string);
  ctx_query : list (string * string);
  ctx_locals : list (string * json)
}.

Fixpoint assoc {V} (k : string) (l : list (string * V)) : option V :=
  match l with
  | [] => None
  | (k', v) :: l' => if String.eqb k' k then Some v else assoc k l'
  end.

Module fiber.

(** [c.Get(key)]: the request header, or the empty string. *)
Definition Get (c : Ctx) (key : string) : string :=
  match assoc key (ctx_headers c) with Some v => v | None => "" end.

(** [c.Params(key)]: the route parameter, or the empty string. *)
Definition Params (c : Ctx) (key : string) : string :=
  match assoc key (ctx_params c) with Some v => v | None => "" end.

(** [c.Query(key, def)]: the query parameter; [def] when it is absent
    or empty. *)
Definition Query (c : Ctx) (key def : string) : string :=
  match assoc key (ctx_query c) with
  | Some v => if String.eqb v "" then def else v
  | None => def
  end.

(** [c.Locals(key)] and [c.Locals(key, value)]. *)
Definition Locals (c : Ctx) (key : string) : option json :=
  assoc key (ctx_locals c).

Definition SetLocals (c : Ctx) (key : string) (v : json) : Ctx :=
  mkCtx (ctx_headers c) (ctx_params c) (ctx_query c)
        ((key, v) :: ctx_locals c).

End fiber.

Module httphelper.

Definition JSONError (code : Z) (message : string) : Response :=
  mkResponse code (fiberMap [("error", JStr message)]).

Definition JSONOK (data : json) : Response :=
  mkResponse StatusOK data.

End httphelper.

(* ================================================================== *)
(** * domain/model *)
(* ================================================================== *)

(** [model.User], fields in the order of the struct. *)
Record User : Type := mkUser {
  ID : string;
  Username : string;
  Email : string;
  Role : string;
  ProfilePhoto : string;
  LastLogin : option Time;
  PasswordHash : string;
  CreatedBy : string;
  CreatedAt : Time;
  UpdatedBy : string;
  UpdatedAt : Time
}.

(** The zero value [model.User{}]. *)
Definition zeroTime : Time := -62135596800 * second.

Definition zeroUser : User :=
  mkUser "" "" "" "" "" None "" "" zeroTime "" zeroTime.

Definition with_ID (u : User) (id : string) : User :=
  mkUser id (Username u) (Email u) (Role u) (ProfilePhoto u) (LastLogin u)
         (PasswordHash u) (CreatedBy u) (CreatedAt u) (UpdatedBy u)
         (UpdatedAt u).

Definition with_PasswordHash (u : User) (h : string) : User :=
  mkUser (ID u) (Username u) (Email u) (Role u) (ProfilePhoto u)
         (LastLogin u) h (CreatedBy u) (CreatedAt u) (UpdatedBy u)
         (UpdatedAt u).

Definition with_UpdatedBy (u : User) (by_ : string) : User :=
  mkUser (ID u) (Username u) (Email u) (Role u) (ProfilePhoto u)
         (LastLogin u) (PasswordHash u) (CreatedBy u) (CreatedAt u) by_
         (UpdatedAt u).

(** A member tagged [omitempty] is left out when its value is empty. *)
Definition omitempty (k : string) (s : string) : list (string * json) :=
  if String.eqb s "" then [] else [(k, JStr s)].

Definition omitnil (k : string) (t : option Time) : list (string * json) :=
  match t with None => [] | Some t => [(k, JTime t)] end.

(** [json.Marshal] of a [model.User], by the struct tags: members in
    field order, [PasswordHash] (tag ["-"]) never written. *)
Definition marshalUser (u : User) : json :=
  JObj ([("id", JStr (ID u)); ("username", JStr (Username u))]
        ++ omitempty "email" (Email u)
        ++ [("role", JStr (Role u))]
        ++ omitempty "profile_photo" (ProfilePhoto u)
        ++ omitnil "last_login" (LastLogin u)
        ++ omitempty "created_by" (CreatedBy u)
        ++ [("created_at", JTime (CreatedAt u))]
        ++ omitempty "updated_by" (UpdatedBy u)
        ++ [("updated_at", JTime (UpdatedAt u))]).

(** [model.Product], fields in the order of the struct.  [Price] and
    [PurchasePrice] are [float64]; they hold whole numbers here: the
    repository neither writes nor reads them. *)
Record Product : Type := mkProduct {
  p_ID : string;
  p_Code : string;
  p_Name : string;
  p_Description : string;
  p_ConditionID : Z;
  p_StatusID : Z;
  p_CategoryID : Z;
  p_BrandID : Z;
  p_SellerID : string;
  p_Price : Z;
  p_PurchasePrice : Z;
  p_StockQty : Z;
  p_CreatedBy : string;
  p_CreatedAt : Time;
  p_UpdatedBy : string;
  p_UpdatedAt : Time
}.

(* ================================================================== *)
(** * The relational store *)
(* ================================================================== *)

(** A row of [users] (migration 001): [email], [profile_photo],
    [last_login], [created_by] and [updated_by] may be NULL. *)
Record UserRow : Type := mkUserRow {
  r_id : string;
  r_username : string;
  r_password_hash : string;
  r_role : string;
  r_email : option string;
  r_profile_photo : option string;
  r_last_login : option Time;
  r_created_by : option string;
  r_created_at : Time;
  r_updated_by : option string;
  r_updated_at : Time
}.

(** A row of [products] (migration 001).  [id] is the key, [code] is
    unique; [price] counts hundredths; every column but [id], [code],
    [name] and [brand] may be NULL. *)
Record ProductRow : Type := mkProductRow {
  pr_id : string;
  pr_code : string;
  pr_name : string;
  pr_brand : string;
  pr_description : option string;
  pr_price : option Z;
  pr_status_id : option Z;
  pr_condition_id : option Z;
  pr_seller_id : option string;
  pr_created_by : option string;
  pr_created_at : option Time;
  pr_updated_by : option string;
  pr_updated_at : option Time
}.

(** Rows of [transactions] and of its line items, as section 3 of the
    specification lists their attributes. *)
Record TransactionRow : Type := mkTransactionRow {
  t_id : string;
  t_type : string;
  t_customer_id : string;
  t_payment_method : string;
  t_shipping_method : option string;
  t_status : string;
  t_total_amount : Z;
  t_notes : option string
}.

Record ItemRow : Type := mkItemRow {
  i_transaction_id : string;
  i_product_id : string;
  i_quantity : Z;
  i_unit_price : Z;
  i_total_price : Z
}.

(** The tables, each in heap order. *)
Record Store : Type := mkStore {
  users : list UserRow;
  products : list ProductRow;
  transactions : list TransactionRow;
  transaction_items : list ItemRow
}.

Definition emptyStore : Store := mkStore [] [] [] [].

(** The statements the program sends, with their parameters bound. *)
Inductive Stmt : Type :=
| InsertUser (u : User)
| UpdateUser (u : User)
| DeleteUser (id : string)
| InsertProduct (p : Product)
| UpdateProduct (p : Product)
| DeleteProduct (id : string)
| InsertTransaction (t : TransactionRow)
| InsertItem (i : ItemRow)
| UpdateProductStatus (product_id : string) (status_id : Z).

(* ================================================================== *)
(** * The engine: what a statement does to the tables *)
(* ================================================================== *)

Definition row_of_user (now : Time) (u : User) : UserRow :=
  mkUserRow (ID u) (Username u) (PasswordHash u) (Role u) (Some (Email u))
            (Some (ProfilePhoto u)) (LastLogin u) (Some (CreatedBy u)) now
            (Some (UpdatedBy u)) now.

Definition update_user_row (now : Time) (u : User) (r : UserRow) : UserRow :=
  if String.eqb (r_id r) (ID u)
  then mkUserRow (r_id r) (Username u) (r_password_hash r) (Role u)
                 (Some (Email u)) (Some (ProfilePhoto u)) (r_last_login r)
                 (r_created_by r) (r_created_at r) (Some (UpdatedBy u)) now
  else r.

Definition set_status (product_id : string) (status_id : Z) (r : ProductRow)
  : ProductRow :=
  if String.eqb (pr_id r) product_id
  then mkProductRow (pr_id r) (pr_code r) (pr_name r) (pr_brand r)
                    (pr_description r) (pr_price r) (Some status_id)
                    (pr_condition_id r) (pr_seller_id r) (pr_created_by r)
                    (pr_created_at r) (pr_updated_by r) (pr_updated_at r)
  else r.

Definition has_user (id : string) (s : Store) : bool :=
  existsb (fun r => String.eqb (r_id r) id) (users s).

Definition has_product (id : string) (s : Store) : bool :=
  existsb (fun r => String.eqb (pr_id r) id) (products s).

Definition has_transaction (id : string) (s : Store) : bool :=
  existsb (fun r => String.eqb (t_id r) id) (transactions s).


Definition with_users (s : Store) (us : list UserRow) : Store :=
  mkStore us (products s) (transactions s) (transaction_items s).

Definition with_products (s : Store) (ps : list ProductRow) : Store :=
  mkStore (users s) ps (transactions s) (transaction_items s).

Definition ErrDuplicateKey : error :=
  "pq: duplicate key value violates unique constraint".
Definition ErrForeignKey : error :=
  "pq: insert or update on table violates foreign key constraint".

(** The double quote of the engine's messages. *)
Definition dq : string := String (ascii_of_nat 34) EmptyString.

Definition ErrUndefinedColumn (column : string) : error :=
  "pq: column " ++ dq ++ column ++ dq ++ " does not exist".

Definition ErrUndefinedColumnOf (column table : string) : error :=
  "pq: column " ++ dq ++ column ++ dq ++ " of relation " ++ dq ++ table ++ dq
  ++ " does not exist".

Definition ErrInvalidUUID (text : string) : error :=
  "pq: invalid input syntax for type uuid: " ++ dq ++ text ++ dq.

(** The columns migration 001 declares for [products]. *)
Definition products_columns : list string :=
  ["id"; "code"; "name"; "brand"; "description"; "price"; "status_id";
   "condition_id"; "seller_id"; "created_by"; "created_at"; "updated_by";
   "updated_at"].

(** The first of the columns a statement names that a table lacks. *)
Definition undefined_column (named table : list string) : option string :=
  find (fun c => negb (existsb (String.eqb c) table)) named.

(** The columns the four statements of the product repository name, in
    the order the engine meets them: the target columns of the INSERT,
    the selected columns, the WHERE of the UPDATE and then its SET, the
    WHERE of the DELETE.  The first of each is [product_id]. *)
Definition insert_product_names : list string :=
  ["product_id"; "name"; "brand_id"; "condition_id"; "status_id";
   "seller_id"; "code"].
Definition select_product_names : list string :=
  ["product_id"; "name"; "brand_id"; "condition_id"; "status_id";
   "seller_id"; "code"].
Definition update_product_names : list string :=
  ["product_id"; "name"; "brand_id"; "condition_id"; "status_id";
   "seller_id"; "code"].
Definition delete_product_names : list string := ["product_id"].

(** The text input of type [uuid] (PostgreSQL, [string_to_uuid]):
    sixteen pairs of hexadecimal digits; a hyphen may follow a group of
    four digits, the last one apart; braces may surround the whole. *)
Definition isxdigit (c : ascii) : bool :=
  let n := nat_of_ascii c in
  ((48 <=? n) && (n <=? 57) || (65 <=? n) && (n <=? 70)
   || (97 <=? n) && (n <=? 102))%nat.

Fixpoint uuid_pairs (n i : nat) (src : string) : option string :=
  match n with
  | O => Some src
  | S n' =>
      match src with
      | String a (String b rest) =>
          if isxdigit a && isxdigit b then
            uuid_pairs n' (S i)
              (match rest with
               | String c rest' =>
                   if Ascii.eqb c "-" && Nat.odd i && (i <? 15)%nat
                   then rest' else rest
               | EmptyString => rest
               end)
          else None
      | _ => None
      end
  end.

Definition is_uuid (text : string) : bool :=
  match text with
  | String c src =>
      if Ascii.eqb c "{" then
        match uuid_pairs 16 0 src with
        | Some rest => String.eqb rest "}"
        | None => false
        end
      else
        match uuid_pairs 16 0 text with
        | Some rest => String.eqb rest ""
        | None => false
        end
  | EmptyString => false
  end.

(** The parameters bound to columns of type [uuid] are parsed before
    the statement runs: the first that is no UUID refuses it. *)
Definition invalid_uuid (params : list string) : option error :=
  option_map ErrInvalidUUID (find (fun text => negb (is_uuid text)) params).

(** The effect of one statement on the tables, with the schema of
    migration 001: the type of the columns [id], [created_by] and
    [updated_by] of [users], its primary key, and the columns of
    [products]: the table has none of the name [product_id], the first
    the engine meets in each statement of the product repository, which
    it therefore refuses.  The text of a UUID is kept as it was written.
    The last three statements are those of the transaction script. *)
Definition apply_stmt (now : Time) (st : Stmt) (s : Store) : result Store :=
  match st with
  | InsertUser u =>
      match invalid_uuid [ID u; CreatedBy u; UpdatedBy u] with
      | Some e => Err e
      | None =>
          if has_user (ID u) s then Err ErrDuplicateKey
          else Ok (with_users s (users s ++ [row_of_user now u]))
      end
  | UpdateUser u =>
      match invalid_uuid [UpdatedBy u; ID u] with
      | Some e => Err e
      | None => Ok (with_users s (map (update_user_row now u) (users s)))
      end
  | DeleteUser id =>
      match invalid_uuid [id] with
      | Some e => Err e
      | None =>
          Ok (with_users s
                (filter (fun r => negb (String.eqb (r_id r) id)) (users s)))
      end
  | InsertProduct p => Err (ErrUndefinedColumnOf "product_id" "products")
  | UpdateProduct p => Err (ErrUndefinedColumn "product_id")
  | DeleteProduct id => Err (ErrUndefinedColumn "product_id")
  | InsertTransaction t =>
      if has_transaction (t_id t) s then Err ErrDuplicateKey
      else Ok (mkStore (users s) (products s) (transactions s ++ [t])
                       (transaction_items s))
  | InsertItem i =>
      if has_transaction (i_transaction_id i) s && has_product (i_product_id i) s
      then Ok (mkStore (users s) (products s) (transactions s)
                       (transaction_items s ++ [i]))
      else Err ErrForeignKey
  | UpdateProductStatus product_id status_id =>
      Ok (with_products s (map (set_status product_id status_id) (products s)))
  end.

(** A script of statements, applied in order; the first refusal ends it. *)
Fixpoint apply_all (now : Time) (sts : list Stmt) (s : Store) : result Store :=
  match sts with
  | [] => Ok s
  | st :: sts' =>
      match apply_stmt now st s with
      | Ok s' => apply_all now sts' s'
      | Err e => Err e
      end
  end.

(* ================================================================== *)
(** * database/sql: the world of one request *)
(* ================================================================== *)

(** A [*sql.Tx]: open on a private copy of the tables, failed (the
    engine ignores commands until the block ends), or finished. *)
Inductive TxState : Type :=
| TxOpen (work : Store)
| TxFailed
| TxDone.

(** [store] is what is committed.  [txs] holds the transaction objects,
    a handle being an index.  [faults] is the schedule of the round trips
    to come: [Some e] makes the next one fail with [e] whatever it asks
    (a lost connection, a server that shuts down); past its end no round
    trip fails.  [cut] says where a failing round trip that streams rows
    breaks: before the answer begins, or once so many rows after the
    first have arrived.  [clock] is the time of the request and [rand]
    the source of random draws. *)
Record World : Type := mkWorld {
  store : Store;
  txs : list TxState;
  faults : list (option error);
  cut : option nat;
  clock : Time;
  rand : nat -> string;
  drawn : nat
}.

Definition Tx := nat.

(** Computations of the service layer: they may fail, and the world
    they leave is kept either way. *)
Definition M (A : Type) : Type := World -> result A * World.

Definition ret {A} (a : A) : M A := fun w => (Ok a, w).

Definition fail {A} (e : error) : M A := fun w => (Err e, w).

Definition bind {A B} (m : M A) (k : A -> M B) : M B :=
  fun w =>
    match m w with
    | (Ok a, w') => k a w'
    | (Err e, w') => (Err e, w')
    end.

Declare Scope go_scope.
Delimit Scope go_scope with go.
Notation "x <- m ;; k" := (bind m (fun x => k))
  (at level 61, m at next level, right associativity) : go_scope.
Notation "m ;; k" := (bind m (fun _ => k))
  (at level 61, right associativity) : go_scope.
Open Scope go_scope.

(** [defer d] before [body]: [d] runs when [body] is left, on every
    path, and what [d] returns is dropped. *)
Definition defer {A} (d : M unit) (body : M A) : M A :=
  fun w =>
    let (r, w1) := body w in
    let (_, w2) := d w1 in
    (r, w2).

Definition with_store (w : World) (s : Store) : World :=
  mkWorld s (txs w) (faults w) (cut w) (clock w) (rand w) (drawn w).

Definition with_txs (w : World) (t : list TxState) : World :=
  mkWorld (store w) t (faults w) (cut w) (clock w) (rand w) (drawn w).

Definition with_faults (w : World) (f : list (option error)) : World :=
  mkWorld (store w) (txs w) f (cut w) (clock w) (rand w) (drawn w).

(** One round trip to the engine. *)
Definition roundtrip : M unit :=
  fun w =>
    match faults w with
    | [] => (Ok tt, w)
    | None :: fs => (Ok tt, with_faults w fs)
    | Some e :: fs => (Err e, with_faults w fs)
    end.

(** One random draw ([crypto/rand]). *)
Definition draw : M string :=
  fun w => (Ok (rand w (drawn w)),
            mkWorld (store w) (txs w) (faults w) (cut w) (clock w) (rand w)
                    (S (drawn w))).

(** [time.Now()]. *)
Definition Now : M Time := fun w => (Ok (clock w), w).

Fixpoint set_nth {A} (n : nat) (x : A) (l : list A) : list A :=
  match l, n with
  | [], _ => []
  | _ :: l', O => x :: l'
  | y :: l', S n' => y :: set_nth n' x l'
  end.

Definition tx_state (w : World) (tx : Tx) : TxState :=
  nth tx (txs w) TxDone.

Definition set_tx (tx : Tx) (st : TxState) : M unit :=
  fun w => (Ok tt, with_txs w (set_nth tx st (txs w))).

Definition ErrTxDone : error :=
  "sql: transaction has already been committed or rolled back".
Definition ErrTxFailed : error :=
  "pq: current transaction is aborted, commands ignored until end of transaction block".
Definition ErrInFailedTransaction : error :=
  "pq: Could not complete operation in a failed transaction".
Definition ErrNoRows : error := "sql: no rows in result set".

Definition rbind {A B} (r : result A) (k : A -> result B) : result B :=
  match r with Ok a => k a | Err e => Err e end.

(** The loop
    [for rows.Next() { if err := rows.Scan(...); err != nil { return nil, err }; out = append(out, x) }]
    over the rows that arrive: the first row that does not scan ends it
    with its error. *)
Fixpoint scanRows {R A} (scan : R -> result A) (rows : list R)
  : result (list A) :=
  match rows with
  | [] => Ok []
  | r :: rows' =>
      rbind (scan r) (fun a =>
      rbind (scanRows scan rows') (fun out => Ok (a :: out)))
  end.

Module sql.

(** [db.BeginTx(ctx, nil)]: a new transaction on a copy of what is
    committed. *)
Definition BeginTx : M Tx :=
  roundtrip ;;
  fun w => (Ok (List.length (txs w)),
            with_txs w (txs w ++ [TxOpen (store w)])).

(** [tx.ExecContext(ctx, stmt, args...)], its [sql.Result] dropped. *)
Definition ExecContext (tx : Tx) (st : Stmt) : M unit :=
  fun w =>
    match tx_state w tx with
    | TxDone => (Err ErrTxDone, w)
    | TxFailed =>
        match roundtrip w with
        | (Ok _, w1) => (Err ErrTxFailed, w1)
        | (Err e, w1) => (Err e, w1)
        end
    | TxOpen work =>
        match roundtrip w with
        | (Err e, w1) => (Err e, with_txs w1 (set_nth tx TxFailed (txs w1)))
        | (Ok _, w1) =>
            match apply_stmt (clock w1) st work with
            | Ok work' =>
                (Ok tt, with_txs w1 (set_nth tx (TxOpen work') (txs w1)))
            | Err e =>
                (Err e, with_txs w1 (set_nth tx TxFailed (txs w1)))
            end
        end
    end.

(** [tx.Commit()]: the copy becomes what is committed, or nothing
    does. *)
Definition Commit (tx : Tx) : M unit :=
  fun w =>
    match tx_state w tx with
    | TxDone => (Err ErrTxDone, w)
    | TxFailed =>
        let (_, w1) := roundtrip w in
        (Err ErrInFailedTransaction,
         with_txs w1 (set_nth tx TxDone (txs w1)))
    | TxOpen work =>
        match roundtrip w with
        | (Err e, w1) => (Err e, with_txs w1 (set_nth tx TxDone (txs w1)))
        | (Ok _, w1) =>
            (Ok tt, with_store (with_txs w1 (set_nth tx TxDone (txs w1))) work)
        end
    end.

(** [tx.Rollback()]: the copy is dropped. *)
Definition Rollback (tx : Tx) : M unit :=
  fun w =>
    match tx_state w tx with
    | TxDone => (Err ErrTxDone, w)
    | _ =>
        let (r, w1) := roundtrip w in
        (r, with_txs w1 (set_nth tx TxDone (txs w1)))
    end.

(** The reads go to the pool, outside any transaction: they see what
    is committed.  [Query] is [db.QueryRowContext(...).Scan(...)], which
    returns the error of a round trip that failed. *)
Definition Query {A} (q : Store -> result A) : M A :=
  roundtrip ;; fun w => (q (store w), w).

(** [db.QueryContext] followed by the loop over [rows.Next()] that
    returns what it collected without asking [rows.Err()].  An answer
    that is an error, and a round trip that fails before the answer
    begins, is the error [QueryContext] returns.  The driver reads the
    first message of the answer before [QueryContext] returns, so that
    the first row, when there is one, has arrived; a round trip that
    fails further on makes [rows.Next()] return false as the end of the
    rows does, and the loop ends with the rows that came: the error is
    lost. *)
Definition QueryRows {R A} (q : Store -> result (list R))
    (scan : R -> result A) : M (list A) :=
  fun w =>
    match faults w with
    | Some e :: fs =>
        match cut w, q (store w) with
        | None, _ => (Err e, with_faults w fs)
        | Some _, Err refused => (Err refused, with_faults w fs)
        | Some k, Ok rows =>
            (scanRows scan (firstn (S k) rows), with_faults w fs)
        end
    | None :: fs => (rbind (q (store w)) (scanRows scan), with_faults w fs)
    | [] => (rbind (q (store w)) (scanRows scan), w)
    end.

End sql.

(* ================================================================== *)
(** * Third-party packages *)
(* ================================================================== *)

Definition MapClaims := list (string * json).

(** What the program needs of [golang.org/x/crypto/bcrypt],
    [github.com/google/uuid] and [github.com/golang-jwt/jwt/v5]:
    hashing from a random salt and comparing; a UUID from random bytes;
    signing claims; splitting a token into its algorithm and claims
    ([None] when it is malformed) and verifying its signature with a
    key. *)
Class Vendor : Type := mkVendor {
  bcrypt_GenerateFromPassword : string -> string -> result string;
  bcrypt_CompareHashAndPassword : string -> string -> option error;
  uuid_NewString : string -> string;
  jwt_SignedString : string -> MapClaims -> string -> result string;
  jwt_decode : string -> option (string * MapClaims);
  jwt_verify : string -> string -> string -> bool
}.

Module jwt.

(** [*jwt.Token] as [Parse] returns it. *)
Record Token : Type := mkToken {
  Claims : MapClaims;
  Valid : bool
}.

Definition ErrTokenMalformed : error := "token is malformed".
Definition ErrTokenSignatureInvalid : error := "token signature is invalid".
Definition ErrTokenExpired : error := "token is expired".
Definition ErrTokenNotValidYet : error := "token is not valid yet".
Definition ErrInvalidType : error := "invalid type for claim".

(** [MapClaims.parseNumericDate]: the date a claim holds, in seconds.
    There is none when the claim is absent and none when it is the
    number 0, which the package reads as a claim that was not set; a
    claim that is no number is an error. *)
Definition parseNumericDate (key : string) (claims : MapClaims)
  : result (option Z) :=
  match assoc key claims with
  | None => Ok None
  | Some (JNum n) => if n =? 0 then Ok None else Ok (Some n)
  | Some _ => Err ErrInvalidType
  end.

(** [Validator.verifyExpiresAt]: a token without expiry passes; one
    with an expiry passes while [now] is before it. *)
Definition verifyExpiresAt (claims : MapClaims) (now : Time) : option error :=
  match parseNumericDate "exp" claims with
  | Err e => Some e
  | Ok None => None
  | Ok (Some exp) => if now <? exp * second then None else Some ErrTokenExpired
  end.

(** [Validator.verifyNotBefore]. *)
Definition verifyNotBefore (claims : MapClaims) (now : Time) : option error :=
  match parseNumericDate "nbf" claims with
  | Err e => Some e
  | Ok None => None
  | Ok (Some nbf) =>
      if now <? nbf * second then Some ErrTokenNotValidYet else None
  end.

(** [Validator.Validate] as [Parse] sets it up, without options: [exp]
    and [nbf] are both checked.  When both fail the package joins the
    two errors; the first stands for them here, [ValidateJWT] drops the
    text. *)
Definition validate (claims : MapClaims) (now : Time) : option error :=
  match verifyExpiresAt claims now, verifyNotBefore claims now with
  | Some e, _ => Some e
  | None, Some e => Some e
  | None, None => None
  end.

(** [jwt.Parse(tokenStr, keyFunc)] for a [keyFunc] that returns [key]
    for every token: decode, verify the signature, validate the
    claims. *)
Definition Parse `{Vendor} (tokenStr key : string) (now : Time)
  : result Token :=
  match jwt_decode tokenStr with
  | None => Err ErrTokenMalformed
  | Some (alg, claims) =>
      if jwt_verify tokenStr alg key then
        match validate claims now with
        | None => Ok (mkToken claims true)
        | Some e => Err e
        end
      else Err ErrTokenSignatureInvalid
  end.

End jwt.

(* ================================================================== *)
(** * backend/config *)
(* ================================================================== *)

Record Config : Type := mkConfig {
  AppName : string;
  AppEnv : string;
  AppPort : string;
  DBHost : string;
  DBPort : Z;
  DBUser : string;
  DBPass : string;
  DBName : string;
  DebugLog : bool;
  JwtSecret : string
}.

(* ================================================================== *)
(** * backend/internal/util *)
(* ================================================================== *)

Module password.

(** [Hash] returns bcrypt hash for a plain password. *)
Definition Hash `{Vendor} (plain : string) : M string :=
  salt <- draw ;;
  fun w => (bcrypt_GenerateFromPassword salt plain, w).

(** [Verify] compares plain vs bcrypt hash. *)
Definition Verify `{Vendor} (plain hash : string) : option error :=
  bcrypt_CompareHashAndPassword hash plain.

End password.

Module jwtutil.

Definition GenerateJWT `{Vendor} (cfg : Config) (email : string) : M string :=
  now <- Now ;;
  let claims := [("email", JStr email);
                 ("exp", JNum (Unix (now + 24 * hour)))] in
  fun w => (jwt_SignedString "HS256" claims (JwtSecret cfg), w).

Definition ValidateJWT `{Vendor} (cfg : Config) (tokenStr : string)
  : M MapClaims :=
  now <- Now ;;
  match jwt.Parse tokenStr (JwtSecret cfg) now with
  | Err _ => fail "invalid or expired token"
  | Ok token =>
      if negb (jwt.Valid token) then fail "invalid or expired token"
      else ret (jwt.Claims token)
  end.

Definition ExtractBearerToken (authHeader : string) : string :=
  if strings.HasPrefix authHeader "Bearer "
  then strings.TrimPrefix authHeader "Bearer "
  else "".

End jwtutil.

(* ================================================================== *)
(** * backend/internal/repository *)
(* ================================================================== *)

Definition ErrScanNull : error :=
  "sql: Scan error: converting NULL to string is unsupported".

(** [rows.Scan] into a Go [string]: NULL does not convert. *)
Definition scanString (c : option string) : result string :=
  match c with Some s => Ok s | None => Err ErrScanNull end.

Definition lift {A} (r : result A) : M A := fun w => (r, w).

(** Scanning every column of a row of [users]. *)
Definition scanUser (r : UserRow) : result User :=
  rbind (scanString (r_email r)) (fun email =>
  rbind (scanString (r_profile_photo r)) (fun photo =>
  rbind (scanString (r_created_by r)) (fun created_by =>
  rbind (scanString (r_updated_by r)) (fun updated_by =>
  Ok (mkUser (r_id r) (r_username r) email (r_role r) photo (r_last_login r)
             (r_password_hash r) created_by (r_created_at r) updated_by
             (r_updated_at r)))))).

(** Scanning the columns [List] selects: [password_hash] is not among
    them and the field keeps its zero value. *)
Definition scanUserListed (r : UserRow) : result User :=
  rbind (scanString (r_email r)) (fun email =>
  rbind (scanString (r_profile_photo r)) (fun photo =>
  rbind (scanString (r_created_by r)) (fun created_by =>
  rbind (scanString (r_updated_by r)) (fun updated_by =>
  Ok (mkUser (r_id r) (r_username r) email (r_role r) photo (r_last_login r)
             "" created_by (r_created_at r) updated_by (r_updated_at r)))))).

(** ORDER BY created_at DESC: insertion from the right, so that rows of
    equal time keep their heap order. *)
Fixpoint insert_desc (r : UserRow) (sorted : list UserRow) : list UserRow :=
  match sorted with
  | [] => [r]
  | x :: rest =>
      if r_created_at x <=? r_created_at r then r :: x :: rest
      else x :: insert_desc r rest
  end.

Definition order_by_created_at_desc (rows : list UserRow) : list UserRow :=
  fold_right insert_desc [] rows.

Definition ErrNegativeOffset : error := "pq: OFFSET must not be negative".

Module userRepository.

Definition Insert (tx : Tx) (u : User) : M unit :=
  sql.ExecContext tx (InsertUser u).

Definition Update (tx : Tx) (u : User) : M unit :=
  sql.ExecContext tx (UpdateUser u).

Definition Delete (tx : Tx) (id : string) : M unit :=
  sql.ExecContext tx (DeleteUser id).

Definition FindByID (id : string) : M User :=
  sql.Query (fun s =>
    match invalid_uuid [id] with
    | Some e => Err e
    | None =>
        match find (fun r => String.eqb (r_id r) id) (users s) with
        | None => Err ErrNoRows
        | Some r => scanUser r
        end
    end).

Definition FindByUsername (username : string) : M User :=
  sql.Query (fun s =>
    match find (fun r => String.eqb (r_username r) username) (users s) with
    | None => Err ErrNoRows
    | Some r => scanUser r
    end).

(** The limit the query runs with. *)
Definition effective_limit (limit : Z) : Z :=
  if limit <=? 0 then 50 else limit.

(** The rows the query of [List] selects. *)
Definition List_rows (limit offset : Z) (s : Store) : list UserRow :=
  firstn (Z.to_nat limit)
         (skipn (Z.to_nat offset) (order_by_created_at_desc (users s))).

Definition List (limit offset : Z) : M (list User) :=
  let limit := effective_limit limit in
  sql.QueryRows (fun s =>
                   if offset <? 0 then Err ErrNegativeOffset
                   else Ok (List_rows limit offset s))
                scanUserListed.

End userRepository.

(** The seven values of a row of the answer to the SELECT of the
    product repository, as [rows.Scan] is given them. *)
Record ProductCells : Type := mkProductCells {
  c_product_id : option string;
  c_name : option string;
  c_brand_id : option Z;
  c_condition_id : option Z;
  c_status_id : option Z;
  c_seller_id : option string;
  c_code : option string
}.

Definition ErrScanNullInt : error :=
  "sql: Scan error: converting NULL to int is unsupported".

(** [rows.Scan] into a Go [int]. *)
Definition scanInt (c : option Z) : result Z :=
  match c with Some n => Ok n | None => Err ErrScanNullInt end.

(** Scanning into a fresh [model.Product]: the other fields keep their
    zero values. *)
Definition scanProduct (r : ProductCells) : result Product :=
  rbind (scanString (c_product_id r)) (fun id =>
  rbind (scanString (c_name r)) (fun name =>
  rbind (scanInt (c_brand_id r)) (fun brand_id =>
  rbind (scanInt (c_condition_id r)) (fun condition_id =>
  rbind (scanInt (c_status_id r)) (fun status_id =>
  rbind (scanString (c_seller_id r)) (fun seller_id =>
  rbind (scanString (c_code r)) (fun code =>
  Ok (mkProduct id code name "" condition_id status_id 0 brand_id seller_id
                0 0 0 "" zeroTime "" zeroTime)))))))).

(** The answer of the engine to that SELECT: [products] has no column
    [product_id]. *)
Definition select_products (s : Store) : result (list ProductCells) :=
  Err (ErrUndefinedColumn "product_id").

Module productRepository.

Definition Insert (tx : Tx) (p : Product) : M unit :=
  sql.ExecContext tx (InsertProduct p).

Definition SelectAll : M (list Product) :=
  sql.QueryRows select_products scanProduct.

Definition Update (tx : Tx) (p : Product) : M unit :=
  sql.ExecContext tx (UpdateProduct p).

Definition Delete (tx : Tx) (id : string) : M unit :=
  sql.ExecContext tx (DeleteProduct id).

End productRepository.

(* ================================================================== *)
(** * backend/internal/service *)
(* ================================================================== *)

Module userService.

(** [u] is a pointer in the source: what is returned here is the
    object as the caller finds it after a call that succeeded. *)
Definition Create `{Vendor} (u : User) (plainPassword : string) : M User :=
  u <- (if String.eqb (ID u) ""
        then r <- draw ;; ret (with_ID u (uuid_NewString r))
        else ret u) ;;
  hash <- password.Hash plainPassword ;;
  let u := with_PasswordHash u hash in
  tx <- sql.BeginTx ;;
  defer (sql.Rollback tx)
    (userRepository.Insert tx u ;;
     sql.Commit tx ;;
     ret u).

Definition Update (u : User) : M unit :=
  tx <- sql.BeginTx ;;
  defer (sql.Rollback tx)
    (userRepository.Update tx u ;;
     sql.Commit tx).

Definition Delete (id : string) : M unit :=
  tx <- sql.BeginTx ;;
  defer (sql.Rollback tx)
    (userRepository.Delete tx id ;;
     sql.Commit tx).

Definition FindByID (id : string) : M User :=
  userRepository.FindByID id.

Definition List (limit offset : Z) : M (list User) :=
  userRepository.List limit offset.

Definition Authenticate `{Vendor} (username plain : string) : M User :=
  u <- userRepository.FindByUsername username ;;
  match password.Verify plain (PasswordHash u) with
  | Some _ => fail "invalid credentials"
  | None => ret u
  end.

End userService.

Module productService.

Definition Create (p : Product) : M unit :=
  tx <- sql.BeginTx ;;
  defer (sql.Rollback tx)
    (productRepository.Insert tx p ;;
     sql.Commit tx).

Definition FindAll : M (list Product) :=
  productRepository.SelectAll.

Definition Update (p : Product) : M unit :=
  tx <- sql.BeginTx ;;
  defer (sql.Rollback tx)
    (productRepository.Update tx p ;;
     sql.Commit tx).

Definition Delete (id : string) : M unit :=
  tx <- sql.BeginTx ;;
  defer (sql.Rollback tx)
    (productRepository.Delete tx id ;;
     sql.Commit tx).

End productService.

(* ================================================================== *)
(** * backend/internal/http *)
(* ================================================================== *)

(** A [fiber.Handler], run in the world of its request. *)
Definition Handler := Ctx -> World -> Outcome * World.

Module middleware.

Definition RequireAuth `{Vendor} (cfg : Config) (next : Handler) : Handler :=
  fun c w =>
    let authHeader := fiber.Get c "Authorization" in
    let tokenStr := jwtutil.ExtractBearerToken authHeader in
    if String.eqb tokenStr "" then
      (Respond (httphelper.JSONError StatusUnauthorized
                  "Missing or malformed token"), w)
    else
      match jwtutil.ValidateJWT cfg tokenStr w with
      | (Err e, w1) =>
          (Respond (httphelper.JSONError StatusUnauthorized e), w1)
      | (Ok claims, w1) =>
          let email := match assoc "email" claims with
                       | Some v => v
                       | None => JNull
                       end in
          next (fiber.SetLocals c "email" email) w1
      end.

End middleware.

Record loginReq : Type := mkLoginReq {
  lr_Username : string;
  lr_Password : string
}.

Record createUserReq : Type := mkCreateUserReq {
  cu_Username : string;
  cu_Email : string;
  cu_Role : string;
  cu_ProfilePhoto : string;
  cu_Password : string
}.

(** [json.Marshal] of a [[]model.User]: a slice nothing was appended to
    is nil and is written [null]. *)
Definition marshalUsers (us : list User) : json :=
  match us with
  | [] => JNull
  | _ => JArr (map marshalUser us)
  end.

(** [json.Marshal] of a [model.Product]: every field is written. *)
Definition marshalProduct (p : Product) : json :=
  JObj [("id", JStr (p_ID p)); ("code", JStr (p_Code p));
        ("name", JStr (p_Name p)); ("description", JStr (p_Description p));
        ("condition_id", JNum (p_ConditionID p));
        ("status_id", JNum (p_StatusID p));
        ("category_id", JNum (p_CategoryID p));
        ("brand_id", JNum (p_BrandID p));
        ("seller_id", JStr (p_SellerID p));
        ("price", JNum (p_Price p));
        ("purchase_price", JNum (p_PurchasePrice p));
        ("stock_qty", JNum (p_StockQty p));
        ("created_by", JStr (p_CreatedBy p));
        ("created_at", JTime (p_CreatedAt p));
        ("updated_by", JStr (p_UpdatedBy p));
        ("updated_at", JTime (p_UpdatedAt p))].

Definition marshalProducts (ps : list Product) : json :=
  match ps with
  | [] => JNull
  | _ => JArr (map marshalProduct ps)
  end.

Module handler.

(** In every handler [body] is what [c.BodyParser] decoded, [None]
    when it returned an error. *)
Definition LoginWithUserService `{Vendor} (cfg : Config)
    (body : option loginReq) : Handler :=
  fun c w =>
    match body with
    | None =>
        (Respond (httphelper.JSONError StatusBadRequest "invalid payload"), w)
    | Some req =>
        let username := strings.TrimSpace (lr_Username req) in
        match userService.Authenticate username (lr_Password req) w with
        | (Err _, w1) =>
            (Respond (httphelper.JSONError StatusUnauthorized
                        "invalid credentials"), w1)
        | (Ok u, w1) =>
            match jwtutil.GenerateJWT cfg (Username u) w1 with
            | (Err _, w2) =>
                (Respond (httphelper.JSONError StatusInternalServerError
                            "could not generate token"), w2)
            | (Ok token, w2) =>
                (Respond (mkResponse StatusOK
                   (fiberMap [("token", JStr token);
                              ("user", fiberMap [("email", JStr (Email u));
                                                 ("id", JStr (ID u));
                                                 ("role", JStr (Role u));
                                                 ("username", JStr (Username u))])])),
                 w2)
            end
        end
    end.

(** [c.Locals("email").(string)]: the assertion panics on anything
    that is not a string. *)
Definition localEmail (c : Ctx) : result string :=
  match fiber.Locals c "email" with
  | Some (JStr s) => Ok s
  | _ => Err "interface conversion: interface {} is not string"
  end.

Definition CreateUser `{Vendor} (body : option createUserReq) : Handler :=
  fun c w =>
    match body with
    | None =>
        (Respond (httphelper.JSONError StatusBadRequest "invalid payload"), w)
    | Some req =>
        match localEmail c with
        | Err msg => (Panic msg, w)
        | Ok email =>
            let u := mkUser "" (cu_Username req) (cu_Email req) (cu_Role req)
                            (cu_ProfilePhoto req) None "" email zeroTime
                            email zeroTime in
            match userService.Create u (cu_Password req) w with
            | (Err e, w1) =>
                (Respond (httphelper.JSONError StatusInternalServerError e), w1)
            | (Ok u, w1) =>
                (Respond (mkResponse StatusCreated
                            (fiberMap [("id", JStr (ID u))])), w1)
            end
        end
    end.

Definition UpdateUser (body : option User) : Handler :=
  fun c w =>
    match body with
    | None =>
        (Respond (httphelper.JSONError StatusBadRequest "invalid payload"), w)
    | Some u =>
        match localEmail c with
        | Err msg => (Panic msg, w)
        | Ok email =>
            let u := with_UpdatedBy u email in
            match userService.Update u w with
            | (Err e, w1) =>
                (Respond (httphelper.JSONError StatusInternalServerError e), w1)
            | (Ok _, w1) =>
                (Respond (mkResponse StatusOK
                            (fiberMap [("message", JStr "updated")])), w1)
            end
        end
    end.

Definition DeleteUser : Handler :=
  fun c w =>
    let id := fiber.Params c "id" in
    if String.eqb id "" then
      (Respond (httphelper.JSONError StatusBadRequest "missing id"), w)
    else
      match userService.Delete id w with
      | (Err e, w1) =>
          (Respond (httphelper.JSONError StatusInternalServerError e), w1)
      | (Ok _, w1) =>
          (Respond (mkResponse StatusOK
                      (fiberMap [("message", JStr "deleted")])), w1)
      end.

Definition GetUserByID : Handler :=
  fun c w =>
    let id := fiber.Params c "id" in
    if String.eqb id "" then
      (Respond (httphelper.JSONError StatusBadRequest "missing id"), w)
    else
      match userService.FindByID id w with
      | (Err _, w1) =>
          (Respond (httphelper.JSONError StatusNotFound "user not found"), w1)
      | (Ok u, w1) =>
          let u := with_PasswordHash u "" in
          (Respond (mkResponse StatusOK (marshalUser u)), w1)
      end.

(** [Atoi] is [strconv.Atoi] with its error dropped, as the handler
    drops it: the number read, 0 for a text that is not a number. *)
Definition ListUsers (Atoi : string -> Z) : Handler :=
  fun c w =>
    let limit := Atoi (fiber.Query c "limit" "50") in
    let offset := Atoi (fiber.Query c "offset" "0") in
    match userService.List limit offset w with
    | (Err e, w1) =>
        (Respond (httphelper.JSONError StatusInternalServerError e), w1)
    | (Ok users, w1) =>
        (Respond (mkResponse StatusOK (marshalUsers users)), w1)
    end.

Definition CreateProduct (body : option Product) : Handler :=
  fun c w =>
    match body with
    | None =>
        (Respond (httphelper.JSONError StatusBadRequest "invalid payload"), w)
    | Some p =>
        match productService.Create p w with
        | (Err e, w1) =>
            (Respond (httphelper.JSONError StatusInternalServerError e), w1)
        | (Ok _, w1) =>
            (Respond (mkResponse StatusCreated
                        (fiberMap [("message", JStr "Product created")])), w1)
        end
    end.

Definition GetAllProducts : Handler :=
  fun c w =>
    match productService.FindAll w with
    | (Err e, w1) =>
        (Respond (httphelper.JSONError StatusInternalServerError e), w1)
    | (Ok list, w1) =>
        (Respond (mkResponse StatusOK (marshalProducts list)), w1)
    end.

End handler.

(* ================================================================== *)
(** * frontend: the transaction form (App.js, TransactionForm) *)
(* ================================================================== *)

Section TransactionForm.

(** JavaScript numbers, with the two operations the form uses. *)
Variable Num : Type.
Variable zero : Num.
Variables add mul : Num -> Num -> Num.

Record Item : Type := mkItem {
  product_id : string;
  quantity : Num;
  unit_price : Num
}.

Record FormData : Type := mkFormData {
  transaction_type : string;
  customer_id : string;
  payment_method : string;
  shipping_method : string;
  notes : string
}.

(** The body of POST /api/transactions. *)
Record SubmitData : Type := mkSubmitData {
  sd_transaction_type : string;
  sd_customer_id : string;
  sd_payment_method : string;
  sd_shipping_method : option string;
  sd_notes : option string;
  sd_items : list Item
}.

(** The component's state after the last [set...] of an event. *)
Record FormState : Type := mkFormState {
  formData : FormData;
  selectedProducts : list Item;
  loading : bool;
  error_ : string
}.

(** [s || null]. *)
Definition or_null (s : string) : option string :=
  if String.eqb s "" then None else Some s.

(** [s || d]. *)
Definition or_default (s d : string) : string :=
  if String.eqb s "" then d else s.

Definition calculateTotal (st : FormState) : Num :=
  fold_left (fun total item => add total (mul (quantity item) (unit_price item)))
            (selectedProducts st) zero.

(** The backend as the form meets it: a state [B] and what a POST does
    to it.  [Rejected detail] is a rejected promise with
    [error.response?.data?.detail], empty when there is none. *)
Variable B : Type.

Inductive PostResult : Type :=
| Resolved
| Rejected (detail : string).

Variable post : SubmitData -> B -> PostResult * B.

(** [handleSubmit]: the state it leaves, the backend, and whether
    [onSuccess] was called. *)
Definition handleSubmit (st : FormState) (b : B) : FormState * B * bool :=
  if (List.length (selectedProducts st) =? 0)%nat then
    (mkFormState (formData st) (selectedProducts st) false
                 "Please select at least one product", b, false)
  else
    let submitData :=
      mkSubmitData (transaction_type (formData st))
                   (customer_id (formData st))
                   (payment_method (formData st))
                   (or_null (shipping_method (formData st)))
                   (or_null (notes (formData st)))
                   (map (fun item => mkItem (product_id item) (quantity item)
                                            (unit_price item))
                        (selectedProducts st)) in
    match post submitData b with
    | (Resolved, b') =>
        (mkFormState (formData st) (selectedProducts st) false "", b', true)
    | (Rejected detail, b') =>
        (mkFormState (formData st) (selectedProducts st) false
                     (or_default detail "Failed to create transaction"),
         b', false)
    end.

End TransactionForm.

(* ================================================================== *)
(** * Transaction creation on the server *)
(* ================================================================== *)

(** A line item of a request; amounts count hundredths, as the store's
    NUMERIC(12,2) columns do. *)
Definition LineItem := Item Z.

(** The request body, with the total a client may have added to it. *)
Record TransactionReq : Type := mkTransactionReq {
  req_data : SubmitData Z;
  req_client_total : option Z
}.

(** The business rule the specification leaves open: the status a sold
    product moves to, and the status a new transaction starts in. *)
Record BusinessRule : Type := mkBusinessRule {
  sale_product_status : Z;
  initial_status : string
}.

Definition ErrValidation : error :=
  "validation error: a transaction needs at least one line item".

(** The sum of quantity x unit_price over the items. *)
Fixpoint sum_items (items : list LineItem) : Z :=
  match items with
  | [] => 0
  | it :: rest => quantity it * unit_price it + sum_items rest
  end.

Fixpoint insert_items (tx : Tx) (transaction_id : string)
    (items : list LineItem) : M unit :=
  match items with
  | [] => ret tt
  | it :: rest =>
      sql.ExecContext tx
        (InsertItem (mkItemRow transaction_id (product_id it) (quantity it)
                               (unit_price it) (quantity it * unit_price it))) ;;
      insert_items tx transaction_id rest
  end.

Fixpoint update_statuses (tx : Tx) (status_id : Z) (items : list LineItem)
  : M unit :=
  match items with
  | [] => ret tt
  | it :: rest =>
      sql.ExecContext tx (UpdateProductStatus (product_id it) status_id) ;;
      update_statuses tx status_id rest
  end.

Definition header_row (rule : BusinessRule) (id : string)
    (d : SubmitData Z) : TransactionRow :=
  mkTransactionRow id (sd_transaction_type d) (sd_customer_id d)
                   (sd_payment_method d) (sd_shipping_method d)
                   (initial_status rule) (sum_items (sd_items d)) (sd_notes d).

(** Modelled from the spec: the server-side handler of
    POST /api/transactions (the service the test notes call server.py) is
    not among the sources.  Section 4.3: reject an empty list of line
    items with a validation error; within one store transaction compute
    the total, insert the header, insert each line item and, for a sale,
    move each referenced product to its new status; a failure anywhere
    rolls everything back.  It is written in the shape of the services
    above. *)
Definition CreateTransaction `{Vendor} (rule : BusinessRule)
    (req : TransactionReq) : M TransactionRow :=
  let d := req_data req in
  match sd_items d with
  | [] => fail ErrValidation
  | _ =>
      r <- draw ;;
      let t := header_row rule (uuid_NewString r) d in
      tx <- sql.BeginTx ;;
      defer (sql.Rollback tx)
        (sql.ExecContext tx (InsertTransaction t) ;;
         insert_items tx (t_id t) (sd_items d) ;;
         (if String.eqb (sd_transaction_type d) "sale"
          then update_statuses tx (sale_product_status rule) (sd_items d)
          else ret tt) ;;
         sql.Commit tx ;;
         ret t)
  end.

(** The statements a request amounts to, in order. *)
Definition transaction_script (rule : BusinessRule) (t : TransactionRow)
    (d : SubmitData Z) : list Stmt :=
  InsertTransaction t
  :: map (fun it => InsertItem (mkItemRow (t_id t) (product_id it) (quantity it)
                                          (unit_price it)
                                          (quantity it * unit_price it)))
         (sd_items d)
  ++ (if String.eqb (sd_transaction_type d) "sale"
      then map (fun it => UpdateProductStatus (product_id it)
                                              (sale_product_status rule))
               (sd_items d)
      else []).

(* ================================================================== *)
(** * Data for the examples *)
(* ================================================================== *)

(** Two hexadecimal digits for a number below 256. *)
Definition hexdigit (n : nat) : ascii :=
  ascii_of_nat (if (n <? 10)%nat then 48 + n else 87 + n).

Definition hex2 (n : nat) : string :=
  String (hexdigit ((n / 16) mod 16)) (String (hexdigit (n mod 16)) "").

(** A UUID in the canonical form, its last byte taken from the draw. *)
Definition exampleUUID (r : string) : string :=
  "5e3d1c0a-7b9f-4d2e-8a6c-0123456789" ++ hex2 (String.length r).

(** An implementation of [Vendor] small enough to run.  It is no
    cryptography: a hash is the reversed password behind the bcrypt
    prefix, and a token is the key, a dot and the e-mail claim, expiring
    at [exampleExp].  Only the worked examples at the end run on it;
    the theorems hold for every implementation. *)
Definition exampleExp : Z := 2000000000.

Definition exampleVendor : Vendor :=
  mkVendor
    (fun _ plain => Ok ("$2a$10$" ++ string_rev plain))
    (fun hash plain =>
       if String.eqb hash ("$2a$10$" ++ string_rev plain) then None
       else Some "crypto/bcrypt: hashedPassword is not the hash of the given password")
    exampleUUID
    (fun alg claims key =>
       match assoc "email" claims with
       | Some (JStr e) => Ok (key ++ "." ++ e)
       | _ => Err "json: unsupported claims"
       end)
    (fun s =>
       match index 0 "." s with
       | Some i =>
           Some ("HS256",
                 [("email", JStr (substring (S i) (String.length s - S i) s));
                  ("exp", JNum exampleExp)])
       | None => None
       end)
    (fun s alg key => String.eqb alg "HS256" && String.prefix (key ++ ".") s).

(** A second implementation for one counterexample: every token
    decodes to claims whose [exp] is the number 0, the first second of
    the epoch. *)
Definition epochVendor : Vendor :=
  mkVendor
    (fun _ plain => Ok ("$2a$10$" ++ string_rev plain))
    (fun hash plain =>
       if String.eqb hash ("$2a$10$" ++ string_rev plain) then None
       else Some "crypto/bcrypt: hashedPassword is not the hash of the given password")
    exampleUUID
    (fun alg claims key => Ok (key ++ ".admin"))
    (fun s => Some ("HS256", [("email", JStr "admin"); ("exp", JNum 0)]))
    (fun s alg key => String.eqb alg "HS256" && String.prefix (key ++ ".") s).

Definition exampleConfig : Config :=
  mkConfig "LuxTrack" "development" "8080" "localhost" 5432 "postgres" ""
           "luxtrack" false "secret".

(** The row migration 002 inserts: only [id], [username],
    [password_hash], [role], [email] and [created_at] are given. *)
Definition seedTime : Time := 1700000000 * second.

Definition adminID : string := "11111111-1111-1111-1111-111111111111".

Definition seedAdmin : UserRow :=
  mkUserRow adminID "admin"
            "$2a$12$REPLACE_WITH_HASH" "admin" (Some "admin@luxtrack.com")
            None None None seedTime None seedTime.

Definition seedStore : Store := mkStore [seedAdmin] [] [] [].

(** A world on [s] at time [now] in which no round trip fails. *)
Definition quietWorld (s : Store) (now : Time) : World :=
  mkWorld s [] [] None now (fun n => "draw-" ++ string_of_list_ascii
                                       (repeat "x"%char n)) 0.

Definition emptyCtx : Ctx := mkCtx [] [] [] [].

(** The administrator as a row the repository can read, under whatever
    hash is stored for it. *)
Definition adminRow (hash : string) : UserRow :=
  mkUserRow adminID "admin" hash "admin"
            (Some "admin@luxtrack.com") (Some "") None (Some adminID) seedTime
            (Some adminID) seedTime.

Definition adminStore (hash : string) : Store := mkStore [adminRow hash] [] [] [].

Definition adminUser (hash : string) : User :=
  mkUser adminID "admin" "admin@luxtrack.com"
         "admin" "" None hash adminID seedTime adminID seedTime.

(** The world of the examples of logging in: the administrator is
    stored with the example hash of admin123. *)
Definition adminHash : string := "$2a$10$" ++ string_rev "admin123".

Definition adminWorld : World := quietWorld (adminStore adminHash) seedTime.

(** A bag on sale, and a sale of two of it and of a product that does
    not exist. *)
Definition bagID : string := "b0a9b0a9-0000-4000-8000-000000000001".

Definition bag : ProductRow :=
  mkProductRow bagID "LVNF0001" "Bag" "Louis Vuitton" None (Some 1250000)
               (Some 1) (Some 1) None None (Some seedTime) None
               (Some seedTime).

Definition shop : Store := mkStore [] [bag] [] [].

Definition exampleRule : BusinessRule := mkBusinessRule 3 "completed".

Definition sale (items : list LineItem) (client_total : option Z)
  : TransactionReq :=
  mkTransactionReq (mkSubmitData "sale" "c1" "cash" None None items)
                   client_total.

(** A user created through the service, whose row scans. *)
Definition alice : UserRow :=
  mkUserRow "a11ce000-0000-4000-8000-000000000001" "alice"
            ("$2a$10$" ++ string_rev "wonderland") "staff"
            (Some "alice@luxtrack.com") (Some "") None (Some adminID)
            (seedTime + hour) (Some adminID) (seedTime + hour).

(* ================================================================== *)
(** * Notions the properties are stated with *)
(* ================================================================== *)

(** [later w w']: [w'] is a world of the same request further on: the
    clock has not moved and the faults still to come were already
    scheduled in [w]. *)
Definition later (w w' : World) : Prop :=
  clock w' = clock w /\ incl (faults w') (faults w).

(** [e] is one of the faults the schedule of [w] holds. *)
Definition scheduled (e : error) (w : World) : Prop := In (Some e) (faults w).

(** A script sent statement by statement on one transaction. *)
Fixpoint exec_all (tx : Tx) (sts : list Stmt) : M unit :=
  match sts with
  | [] => ret tt
  | st :: sts' => sql.ExecContext tx st ;; exec_all tx sts'
  end.

(** What a caller may observe of a mutating use case that stands for the
    script [sts]: on success everything the script does is committed; on
    an error nothing is, and the error is the one the engine gave, a
    scheduled fault or the refusal of a statement. *)
Definition all_or_nothing {A} (sts : list Stmt) (w : World)
    (run : result A * World) : Prop :=
  match fst run with
  | Ok _ => apply_all (clock w) sts (store w) = Ok (store (snd run))
  | Err e =>
      store (snd run) = store w /\
      (scheduled e w \/ apply_all (clock w) sts (store w) = Err e)
  end.

(** The object [userService.Create] hands to the repository: the
    caller's, with a drawn UUID when it came without an ID, and the hash
    of the password under a drawn salt.  [Err] when hashing fails. *)
Definition prepared_user `{Vendor} (u : User) (plainPassword : string)
    (w : World) : result User :=
  let fresh := String.eqb (ID u) "" in
  let id := if fresh then uuid_NewString (rand w (drawn w)) else ID u in
  let salt := rand w (if fresh then S (drawn w) else drawn w) in
  match bcrypt_GenerateFromPassword salt plainPassword with
  | Ok hash => Ok (with_PasswordHash (with_ID u id) hash)
  | Err e => Err e
  end.

(** How a handler answers for a service call: an error goes out as it
    is, under status 500; success goes out as [created] says. *)
Definition surfaces {A} (run : result A * World) (out : Outcome * World)
    (created : A -> Response) : Prop :=
  match run with
  | (Err e, w1) =>
      out = (Respond (httphelper.JSONError StatusInternalServerError e), w1)
  | (Ok a, w1) => out = (Respond (created a), w1)
  end.

(** The world once [Create] has drawn what it needs. *)
Definition after_draws (u : User) (w : World) : World :=
  mkWorld (store w) (txs w) (faults w) (cut w) (clock w) (rand w)
          (if String.eqb (ID u) "" then S (S (drawn w)) else S (drawn w)).

(** The row of a line item of transaction [transaction_id]. *)
Definition item_row (transaction_id : string) (it : LineItem) : ItemRow :=
  mkItemRow transaction_id (product_id it) (quantity it) (unit_price it)
            (quantity it * unit_price it).

(** The world once [CreateTransaction] has drawn the identifier. *)
Definition after_draw (w : World) : World :=
  mkWorld (store w) (txs w) (faults w) (cut w) (clock w) (rand w) (S (drawn w)).

(** A statement that leaves the table of transactions as it is. *)
Definition keeps_transactions (st : Stmt) : bool :=
  match st with
  | InsertTransaction _ => false
  | _ => true
  end.

(** The line items a statement appends. *)
Definition appended_items (st : Stmt) : list ItemRow :=
  match st with
  | InsertItem i => [i]
  | _ => []
  end.

(** What ORDER BY created_at DESC LIMIT [limit] OFFSET [offset] selects
    out of a table once it is ordered. *)
Definition page_of (limit offset : Z) (sorted : list UserRow) : list UserRow :=
  firstn (Z.to_nat limit) (skipn (Z.to_nat offset) sorted).

(** The user [List] makes of a row: the ten columns it selects, each in
    its field, and no password hash. *)
Definition listed (r : UserRow) (u : User) : Prop :=
  ID u = r_id r /\ Username u = r_username r /\ Role u = r_role r /\
  r_email r = Some (Email u) /\ r_profile_photo r = Some (ProfilePhoto u) /\
  LastLogin u = r_last_login r /\
  r_created_by r = Some (CreatedBy u) /\ CreatedAt u = r_created_at r /\
  r_updated_by r = Some (UpdatedBy u) /\ UpdatedAt u = r_updated_at r /\
  PasswordHash u = "".

(** Created no earlier than: the order of [created_at DESC]. *)
Definition newest_first (a b : User) : Prop := CreatedAt b <= CreatedAt a.

Definition row_newest_first (a b : UserRow) : Prop :=
  r_created_at b <= r_created_at a.

(** [sorted] is the table [rows] in the order of [created_at DESC]:
    the same rows, none created later than one before it.  Rows of one
    time may come in any order. *)
Definition ordered_newest_first (rows sorted : list UserRow) : Prop :=
  Permutation sorted rows /\ StronglySorted row_newest_first sorted.

(** What [ListUsers] answers for the outcome of the service call. *)
Definition list_response (run : result (list User) * World) : Outcome :=
  match run with
  | (Err e, _) =>
      Respond (httphelper.JSONError StatusInternalServerError e)
  | (Ok us, _) => Respond (mkResponse StatusOK (marshalUsers us))
  end.

(** The same row under another password hash. *)
Definition rehash_row (f : UserRow -> string) (r : UserRow) : UserRow :=
  mkUserRow (r_id r) (r_username r) (f r) (r_role r) (r_email r)
            (r_profile_photo r) (r_last_login r) (r_created_by r)
            (r_created_at r) (r_updated_by r) (r_updated_at r).

(** The same world in which every user's password hash is replaced by
    what [f] says: two worlds that differ in nothing but the hashes. *)
Definition rehash (f : UserRow -> string) (w : World) : World :=
  with_store w (with_users (store w) (map (rehash_row f) (users (store w)))).

(** The member names [json.Marshal] may write for a [model.User]. *)
Definition user_members : list string :=
  ["id"; "username"; "email"; "role"; "profile_photo"; "last_login";
   "created_by"; "created_at"; "updated_by"; "updated_at"].

(** The body of a successful login for the stored row [r]. *)
Definition login_body (token : string) (id username role email : string)
  : json :=
  fiberMap [("token", JStr token);
            ("user", fiberMap [("email", JStr email); ("id", JStr id);
                               ("role", JStr role);
                               ("username", JStr username)])].

Definition unauthorized (message : string) : Outcome :=
  Respond (httphelper.JSONError StatusUnauthorized message).

(** The middleware answers 401 itself, in the world it was given,
    whatever the handler behind it is: the handler is not run. *)
Definition rejects `{Vendor} (cfg : Config) (c : Ctx) (w : World) : Prop :=
  exists message, forall next : Handler,
    middleware.RequireAuth cfg next c w = (unauthorized message, w).


(** The claim as the specification words it, with the [exp] claim as
    the expiry whatever number it is: a token that is malformed, wrongly
    signed or has an [exp] not after [now]. *)
Definition past_exp `{Vendor} (key : string) (now : Time) (tokenStr : string)
  : Prop :=
  match jwt_decode tokenStr with
  | None => True
  | Some (alg, claims) =>
      jwt_verify tokenStr alg key = false \/
      exists exp, assoc "exp" claims = Some (JNum exp) /\ exp * second <= now
  end.

(** The claims [GenerateJWT] signs for [email] at time [now]. *)
Definition login_claims (email : string) (now : Time) : MapClaims :=
  [("email", JStr email); ("exp", JNum (Unix (now + 24 * hour)))].

Create HintDb world.

(* ================================================================== *)
(** * frontend: editing the line items (App.js, TransactionForm) *)
(* ================================================================== *)

(** [l.filter((x, i) => f(x, i))]: the elements kept, with [i] the
    position in [l] counted from [start]. *)
Fixpoint filteri {A} (f : A -> nat -> bool) (l : list A) (start : nat)
  : list A :=
  match l with
  | [] => []
  | x :: l' =>
      if f x start then x :: filteri f l' (S start) else filteri f l' (S start)
  end.

Section TransactionFormEdits.

(** JavaScript numbers again, with 0 and 1, and which of them are truthy
    (all but 0 and NaN).  [parseInt] and [parseFloat] give [None] for
    NaN. *)
Variable Num : Type.
Variables zero one : Num.
Variable truthy : Num -> bool.
Variables parseInt parseFloat : string -> option Num.

(** [parsed || d]. *)
Definition num_or (parsed : option Num) (d : Num) : Num :=
  match parsed with
  | Some n => if truthy n then n else d
  | None => d
  end.

(** A product as GET /api/products lists it, with what the form reads:
    [selling_price] may be null. *)
Record ListedProduct : Type := mkListedProduct {
  lp_id : string;
  lp_selling_price : option Num;
  lp_purchase_price : Num
}.

(** [product.selling_price || product.purchase_price]. *)
Definition price_of (p : ListedProduct) : Num :=
  num_or (lp_selling_price p) (lp_purchase_price p).

Definition with_selectedProducts (st : FormState Num) (l : list (Item Num))
  : FormState Num :=
  mkFormState (formData st) l (loading st) (error_ st).

Definition addProduct (st : FormState Num) : FormState Num :=
  with_selectedProducts st (selectedProducts st ++ [mkItem "" one zero]).

Definition removeProduct (index : nat) (st : FormState Num) : FormState Num :=
  with_selectedProducts st
    (filteri (fun _ i => negb (Nat.eqb i index)) (selectedProducts st) 0).

(** [updated[index][field] = ...]: the three members an item has; a
    write under another name leaves them as they are. *)
Definition set_field (item : Item Num) (field value : string) : Item Num :=
  if String.eqb field "quantity" then
    mkItem (product_id item) (num_or (parseInt value) one) (unit_price item)
  else if String.eqb field "unit_price" then
    mkItem (product_id item) (quantity item) (num_or (parseFloat value) zero)
  else if String.eqb field "product_id" then
    mkItem value (quantity item) (unit_price item)
  else item.

(** [updateProductItem]: [None] when [updated[index]] is undefined and
    the assignment throws, so that no state is set. *)
Definition updateProductItem (products : list ListedProduct)
    (index : nat) (field value : string) (st : FormState Num)
  : option (FormState Num) :=
  match nth_error (selectedProducts st) index with
  | None => None
  | Some item =>
      let item := set_field item field value in
      let item :=
        if String.eqb field "product_id" then
          match find (fun p => String.eqb (lp_id p) value) products with
          | Some product =>
              mkItem (product_id item) (quantity item) (price_of product)
          | None => item
          end
        else item in
      Some (with_selectedProducts st (set_nth index item (selectedProducts st)))
  end.

End TransactionFormEdits.

(* ================================================================== *)
(** * frontend: ImageUpload (App.js) *)
(* ================================================================== *)

(** A chosen file: its size in bytes and the data URL a FileReader
    makes of it. *)
Record File : Type := mkFile {
  file_size : Z;
  file_dataURL : string
}.

(** What the component does to the outside: an alert, or a call of
    [onChange]. *)
Inductive UploadEffect : Type :=
| Alert (message : string)
| OnChange (images : list string).

Definition maxFiles : nat := 10.

(** The body of [files.forEach]: an alert for a file over 5 MB; for
    another one a reader whose [onload] calls [onChange] with the images
    the component was rendered with and the new one. *)
Definition upload_one (images : list string) (file : File) : UploadEffect :=
  if 5 * 1024 * 1024 <? file_size file
  then Alert "Each image must be less than 5MB"
  else OnChange (images ++ [file_dataURL file]).

(** [handleImageUpload]: its effects, file by file.  The readers finish
    when and in the order they like. *)
Definition handleImageUpload (images : list string) (files : list File)
  : list UploadEffect :=
  if (maxFiles <? List.length files)%nat
  then [Alert "Maximum 10 images allowed"]
  else map (upload_one images) files.

Definition removeImage (images : list string) (index : nat) : UploadEffect :=
  OnChange (filteri (fun _ i => negb (Nat.eqb i index)) images 0).

(** The parent's [images] after some effects reached it: [onChange] is
    its [setImages]. *)
Definition images_after (images : list string) (effects : list UploadEffect)
  : list string :=
  fold_left (fun imgs e => match e with
                           | OnChange imgs' => imgs'
                           | Alert _ => imgs
                           end) effects images.

(* ================================================================== *)
(** * backend/config: loading *)
(* ================================================================== *)

(** [os.Getenv] once the .env file is read: the empty string for a
    variable that is not set. *)
Definition Env := string -> string.

Definition getEnv (env : Env) (key fallback : string) : string :=
  let val := env key in
  if String.eqb val "" then fallback else val.

(** [load]: [Err] stands for the [log.Fatal] that ends the process.
    [Atoi] is [strconv.Atoi], [None] when it returns an error. *)
Definition load (Atoi : string -> option Z) (env : Env) : result Config :=
  match Atoi (getEnv env "DB_PORT" "5432") with
  | None => Err "Invalid DB_PORT, must be integer"
  | Some dbPort =>
      Ok (mkConfig (getEnv env "APP_NAME" "LuxTrack")
                   (getEnv env "APP_ENV" "development")
                   (getEnv env "APP_PORT" "8080")
                   (getEnv env "DB_HOST" "localhost")
                   dbPort
                   (getEnv env "DB_USER" "postgres")
                   (getEnv env "DB_PASS" "")
                   (getEnv env "DB_NAME" "luxtrack")
                   (String.eqb (getEnv env "DEBUG_LOG" "false") "true")
                   (getEnv env "JWT_SECRET" ""))
  end.

(** The package variables [cfg] and [once]: [None] until [once.Do] has
    run. *)
Definition ConfigState := option Config.

(** [Get]: the configuration and the state it leaves; a fatal load
    leaves none. *)
Definition Get (Atoi : string -> option Z) (env : Env) (st : ConfigState)
  : result Config * ConfigState :=
  match st with
  | Some cfg => (Ok cfg, st)
  | None =>
      match load Atoi env with
      | Ok cfg => (Ok cfg, Some cfg)
      | Err e => (Err e, None)
      end
  end.

(** [LoadConfig] returns a fresh load (used in main), says its comment;
    it returns [Get()]. *)
Definition LoadConfig (Atoi : string -> option Z) (env : Env)
    (st : ConfigState) : result Config * ConfigState :=
  Get Atoi env st.

(* ================================================================== *)
(** * Further notions the properties are stated with *)
(* ================================================================== *)

(** The fault scheduled for the next round trip, if any. *)
Definition next_fault (w : World) : option error :=
  match faults w with
  | f :: _ => f
  | [] => None
  end.


(** What the middleware puts under "email" for the claims of a token. *)
Definition email_claim (claims : MapClaims) : json :=
  match assoc "email" claims with
  | Some v => v
  | None => JNull
  end.

(** The end of a token's life: the [exp] claim [GenerateJWT] writes at
    [issued], as an instant. *)
Definition expiry (issued : Time) : Time := Unix (issued + 24 * hour) * second.

(** A row [List] and the finders cannot scan: one of the four text
    columns read into a Go string is NULL. *)
Definition has_null (r : UserRow) : bool :=
  match r_email r, r_profile_photo r, r_created_by r, r_updated_by r with
  | Some _, Some _, Some _, Some _ => false
  | _, _, _, _ => true
  end.

(** JavaScript numbers as integers for the totals: truthy is non-zero. *)
Definition Ztruthy (n : Z) : bool := negb (n =? 0).

(** The instant at which the example token was issued. *)
Definition exampleIssued : Time := (exampleExp - 86400) * second.

(** The request carries a token the middleware accepts, and the "email"
    claim of that token is no string: it is absent, or a number, an
    object and the like. *)
Definition no_string_email `{Vendor} (cfg : Config) (c : Ctx) (w : World)
  : Prop :=
  let tok := jwtutil.ExtractBearerToken (fiber.Get c "Authorization") in
  tok <> "" /\
  exists token,
    jwt.Parse tok (JwtSecret cfg) (clock w) = Ok token /\
    forall s, email_claim (jwt.Claims token) <> JStr s.

(** A handler that panics, in the world it was given. *)
Definition panics (h : Handler) (c : Ctx) (w : World) : Prop :=
  exists msg, h c w = (Panic msg, w).

(** A second implementation of [Vendor] for one worked example: its
    tokens carry an expiry and nothing else, as a token of another
    service signed with the same secret may. *)
Definition bareVendor : Vendor :=
  mkVendor
    (fun _ plain => Ok ("$2a$10$" ++ string_rev plain))
    (fun hash plain =>
       if String.eqb hash ("$2a$10$" ++ string_rev plain) then None
       else Some "crypto/bcrypt: hashedPassword is not the hash of the given password")
    exampleUUID
    (fun alg claims key => Ok (key ++ "."))
    (fun s => Some ("HS256", [("exp", JNum exampleExp)]))
    (fun s alg key => String.eqb alg "HS256" && String.prefix (key ++ ".") s).

Unset Implicit Arguments.

(* ================================================================== *)
(** * Lemmas on the world of a request *)
(* ================================================================== *)

Lemma length_set_nth {A} (n : nat) (x : A) (l : list A) :
  List.length (set_nth n x l) = List.length l.
Proof.
  revert n; induction l as [|y l IH]; intros [|n]; simpl; auto.
Qed.

Lemma nth_set_nth {A} (n : nat) (x d : A) (l : list A) :
  (n < List.length l)%nat -> nth n (set_nth n x l) d = x.
Proof.
  revert n; induction l as [|y l IH]; intros [|n] Hn; simpl in *;
    try lia; auto.
  apply IH; lia.
Qed.

Lemma tx_state_in_range (w : World) (tx : Tx) :
  tx_state w tx <> TxDone -> (tx < List.length (txs w))%nat.
Proof.
  unfold tx_state; intros Hs.
  destruct (Nat.lt_ge_cases tx (List.length (txs w))) as [|Hge]; auto.
  rewrite nth_overflow in Hs by exact Hge. congruence.
Qed.

Lemma tx_state_set (w : World) (tx : Tx) (st : TxState) :
  tx_state w tx <> TxDone ->
  tx_state (with_txs w (set_nth tx st (txs w))) tx = st.
Proof.
  intros Hs; unfold tx_state; simpl.
  apply nth_set_nth, tx_state_in_range, Hs.
Qed.

Lemma later_refl w : later w w.
Proof. split; [reflexivity | apply incl_refl]. Qed.

Lemma later_trans w1 w2 w3 : later w1 w2 -> later w2 w3 -> later w1 w3.
Proof.
  intros [C1 F1] [C2 F2]; split; [congruence | eapply incl_tran; eauto].
Qed.

Lemma scheduled_later w w' e : later w w' -> scheduled e w' -> scheduled e w.
Proof. intros [_ F] Hs; apply F, Hs. Qed.

Lemma roundtrip_frame w r w1 :
  roundtrip w = (r, w1) ->
  store w1 = store w /\ txs w1 = txs w /\ later w w1 /\
  (forall e, r = Err e -> scheduled e w).
Proof.
  unfold roundtrip, later, scheduled.
  destruct (faults w) as [|[e|] fs] eqn:F; intros E; inversion E; subst;
    simpl; rewrite ?F; repeat split; auto using incl_refl, incl_tl;
    try discriminate.
  intros e' He'; inversion He'; subst; left; reflexivity.
Qed.

#[local] Hint Resolve later_refl : world.

Lemma BeginTx_ok w tx w1 :
  sql.BeginTx w = (Ok tx, w1) ->
  tx_state w1 tx = TxOpen (store w) /\ store w1 = store w /\ later w w1.
Proof.
  unfold sql.BeginTx, bind.
  destruct (roundtrip w) as [[[]|e] w0] eqn:R; intros E; inversion E; subst.
  apply roundtrip_frame in R as (S0 & T0 & L0 & _).
  unfold tx_state; simpl. repeat split.
  - rewrite app_nth2, Nat.sub_diag by lia. simpl. congruence.
  - exact S0.
  - apply L0.
  - apply L0.
Qed.

Lemma BeginTx_err w e w1 :
  sql.BeginTx w = (Err e, w1) ->
  store w1 = store w /\ scheduled e w.
Proof.
  unfold sql.BeginTx, bind.
  destruct (roundtrip w) as [[[]|e'] w0] eqn:R; intros E; inversion E; subst.
  apply roundtrip_frame in R as (S0 & _ & _ & H). auto.
Qed.

Lemma ExecContext_store tx st w r w1 :
  sql.ExecContext tx st w = (r, w1) -> store w1 = store w /\ later w w1.
Proof.
  unfold sql.ExecContext.
  destruct (tx_state w tx) as [work| |];
    [ destruct (roundtrip w) as [[[]|e] w0] eqn:R;
      [ destruct (apply_stmt (clock w0) st work) | ]
    | destruct (roundtrip w) as [[[]|e] w0] eqn:R
    | ];
    intros E; inversion E; subst; simpl;
    try (apply roundtrip_frame in R as (S0 & _ & L0 & _)); auto with world.
Qed.

Lemma ExecContext_ok tx st w w1 :
  sql.ExecContext tx st w = (Ok tt, w1) ->
  exists work work',
    tx_state w tx = TxOpen work /\
    apply_stmt (clock w) st work = Ok work' /\
    tx_state w1 tx = TxOpen work'.
Proof.
  unfold sql.ExecContext.
  destruct (tx_state w tx) as [work| |] eqn:S;
    [ destruct (roundtrip w) as [[[]|e] w0] eqn:R;
      [ destruct (apply_stmt (clock w0) st work) as [work'|e] eqn:A | ]
    | destruct (roundtrip w) as [[[]|e] w0] eqn:R
    | ];
    intros E; inversion E; subst.
  apply roundtrip_frame in R as (S0 & T0 & [C0 _] & _).
  exists work, work'. rewrite <- C0. repeat split; auto.
  apply tx_state_set. unfold tx_state in *. rewrite T0, S. discriminate.
Qed.

Lemma ExecContext_err tx st w e w1 work :
  tx_state w tx = TxOpen work ->
  sql.ExecContext tx st w = (Err e, w1) ->
  scheduled e w \/ apply_stmt (clock w) st work = Err e.
Proof.
  unfold sql.ExecContext. intros ->.
  destruct (roundtrip w) as [[[]|e'] w0] eqn:R;
    [ destruct (apply_stmt (clock w0) st work) as [work'|e'] eqn:A | ];
    intros E; inversion E; subst;
    apply roundtrip_frame in R as (S0 & T0 & [C0 _] & H).
  - right. rewrite <- C0. exact A.
  - left. auto.
Qed.

Lemma Commit_ok tx w w1 :
  sql.Commit tx w = (Ok tt, w1) ->
  exists work, tx_state w tx = TxOpen work /\ store w1 = work /\ later w w1.
Proof.
  unfold sql.Commit.
  destruct (tx_state w tx) as [work| |] eqn:S;
    [ destruct (roundtrip w) as [[[]|e] w0] eqn:R
    | destruct (roundtrip w) as [r0 w0] eqn:R
    | ];
    intros E; inversion E; subst.
  apply roundtrip_frame in R as (S0 & T0 & L0 & _).
  exists work; repeat split; auto; apply L0.
Qed.

Lemma Commit_err tx w e w1 :
  sql.Commit tx w = (Err e, w1) -> store w1 = store w /\ later w w1.
Proof.
  unfold sql.Commit.
  destruct (tx_state w tx) as [work| |] eqn:S;
    [ destruct (roundtrip w) as [[[]|e'] w0] eqn:R
    | destruct (roundtrip w) as [r0 w0] eqn:R
    | ];
    intros E; inversion E; subst; simpl;
    try (apply roundtrip_frame in R as (S0 & T0 & L0 & _)); auto with world.
Qed.

Lemma Commit_err_open tx w e w1 work :
  tx_state w tx = TxOpen work ->
  sql.Commit tx w = (Err e, w1) -> scheduled e w.
Proof.
  unfold sql.Commit. intros ->.
  destruct (roundtrip w) as [[[]|e'] w0] eqn:R;
    intros E; inversion E; subst.
  apply roundtrip_frame in R as (_ & _ & _ & H). auto.
Qed.

Lemma Rollback_store tx w r w1 :
  sql.Rollback tx w = (r, w1) -> store w1 = store w /\ later w w1.
Proof.
  unfold sql.Rollback.
  destruct (tx_state w tx) as [work| |] eqn:S;
    try destruct (roundtrip w) as [r0 w0] eqn:R;
    intros E; inversion E; subst; simpl;
    try (apply roundtrip_frame in R as (S0 & T0 & L0 & _)); auto with world.
Qed.

Lemma defer_Rollback_store {A} tx (body : M A) w r w1 :
  defer (sql.Rollback tx) body w = (r, w1) ->
  exists w0, body w = (r, w0) /\ store w1 = store w0 /\ later w0 w1.
Proof.
  unfold defer.
  destruct (body w) as [r0 w0] eqn:B.
  destruct (sql.Rollback tx w0) as [r1 w2] eqn:R.
  intros E; inversion E; subst.
  exists w0; split; auto. eapply Rollback_store; eauto.
Qed.

(** ** Scripts *)

Lemma apply_all_app now a b s :
  apply_all now (a ++ b) s =
  match apply_all now a s with
  | Ok s' => apply_all now b s'
  | Err e => Err e
  end.
Proof.
  revert s; induction a as [|st a IH]; intros s; simpl; auto.
  destruct (apply_stmt now st s); auto.
Qed.

Lemma exec_all_frame tx sts w r w1 :
  exec_all tx sts w = (r, w1) -> store w1 = store w /\ later w w1.
Proof.
  revert w; induction sts as [|st sts IH]; intros w; simpl.
  - intros E; inversion E; subst; auto with world.
  - unfold bind. destruct (sql.ExecContext tx st w) as [[[]|e] w0] eqn:X.
    + intros E. apply IH in E as [S1 L1].
      apply ExecContext_store in X as [S0 L0].
      split; [congruence | eapply later_trans; eauto].
    + intros E; inversion E; subst. eapply ExecContext_store; eauto.
Qed.

Lemma exec_all_ok tx sts : forall w w1 work,
  tx_state w tx = TxOpen work ->
  exec_all tx sts w = (Ok tt, w1) ->
  exists work',
    apply_all (clock w) sts work = Ok work' /\ tx_state w1 tx = TxOpen work'.
Proof.
  induction sts as [|st sts IH]; intros w w1 work Hopen; simpl.
  - intros E; inversion E; subst. eauto.
  - unfold bind. destruct (sql.ExecContext tx st w) as [[[]|e] w0] eqn:X;
      [|discriminate].
    intros E.
    pose proof (ExecContext_store _ _ _ _ _ X) as [_ [C0 _]].
    apply ExecContext_ok in X as (wk & wk' & H1 & H2 & H3).
    rewrite Hopen in H1; inversion H1; subst wk.
    rewrite H2. rewrite <- C0. eapply IH; eauto.
Qed.

Lemma exec_all_err tx sts : forall w w1 work e,
  tx_state w tx = TxOpen work ->
  exec_all tx sts w = (Err e, w1) ->
  scheduled e w \/ apply_all (clock w) sts work = Err e.
Proof.
  induction sts as [|st sts IH]; intros w w1 work e Hopen; simpl.
  - discriminate.
  - unfold bind. destruct (sql.ExecContext tx st w) as [[[]|e'] w0] eqn:X.
    + intros E.
      pose proof (ExecContext_store _ _ _ _ _ X) as [_ L0].
      apply ExecContext_ok in X as (wk & wk' & H1 & H2 & H3).
      rewrite Hopen in H1; inversion H1; subst wk.
      rewrite H2.
      destruct (IH _ _ _ _ H3 E) as [Hs|Ha].
      * left. eapply scheduled_later; eauto.
      * right. destruct L0 as [C0 _]. rewrite <- C0. exact Ha.
    + intros E; inversion E; subst.
      destruct (ExecContext_err _ _ _ _ _ _ Hopen X) as [Hs|Ha]; auto.
      right. rewrite Ha. reflexivity.
Qed.

(** The block every mutating service is: begin, defer the rollback,
    send the script, commit. *)
Lemma tx_block_all_or_nothing {A} (sts : list Stmt) (a : A) (w : World) :
  all_or_nothing sts w
    ((tx <- sql.BeginTx ;;
      defer (sql.Rollback tx) (exec_all tx sts ;; sql.Commit tx ;; ret a)) w).
Proof.
  unfold all_or_nothing.
  destruct ((tx <- sql.BeginTx ;;
             defer (sql.Rollback tx)
               (exec_all tx sts ;; sql.Commit tx ;; ret a)) w)
    as [r wf] eqn:Run; simpl.
  unfold bind at 1 in Run.
  destruct (sql.BeginTx w) as [[tx|e] w0] eqn:B.
  - apply BeginTx_ok in B as (Hopen & S0 & L0).
    apply defer_Rollback_store in Run as (w2 & Hbody & S2 & L2).
    unfold bind in Hbody.
    destruct (exec_all tx sts w0) as [[[]|e] w1] eqn:X.
    + pose proof (exec_all_frame _ _ _ _ _ X) as [S1 L1].
      destruct (exec_all_ok _ _ _ _ _ Hopen X) as (work' & Happly & Hopen').
      destruct (sql.Commit tx w1) as [[[]|e] wc] eqn:C.
      * inversion Hbody; subst.
        apply Commit_ok in C as (wk & H1 & H2 & _).
        rewrite Hopen' in H1; inversion H1; subst wk.
        destruct L0 as [C0 _]. rewrite <- C0, Happly. congruence.
      * inversion Hbody; subst.
        pose proof (Commit_err_open _ _ _ _ _ Hopen' C) as Hs.
        apply Commit_err in C as [Sc _].
        split; [congruence|].
        left. eapply scheduled_later; [exact L0|].
        eapply scheduled_later; eauto.
    + inversion Hbody; subst.
      pose proof (exec_all_frame _ _ _ _ _ X) as [S1 L1].
      split; [congruence|].
      destruct (exec_all_err _ _ _ _ _ _ Hopen X) as [Hs|Ha].
      * left. eapply scheduled_later; eauto.
      * right. destruct L0 as [C0 _]. rewrite <- C0. exact Ha.
  - inversion Run; subst. apply BeginTx_err in B as [S0 Hs]. auto.
Qed.

(** ** The services as blocks *)

Lemma single_statement_block (st : Stmt) (w : World) :
  (tx <- sql.BeginTx ;;
   defer (sql.Rollback tx) (sql.ExecContext tx st ;; sql.Commit tx)) w
  = (tx <- sql.BeginTx ;;
     defer (sql.Rollback tx)
       (exec_all tx [st] ;; sql.Commit tx ;; ret tt)) w.
Proof.
  unfold bind at 1 3.
  destruct (sql.BeginTx w) as [[tx|e] w0]; [|reflexivity].
  unfold defer, bind, exec_all, bind, ret.
  destruct (sql.ExecContext tx st w0) as [[[]|e] w1]; [|reflexivity].
  destruct (sql.Commit tx w1) as [[[]|e] w2]; reflexivity.
Qed.

Lemma single_statement_all_or_nothing (st : Stmt) (w : World) :
  all_or_nothing [st] w
    ((tx <- sql.BeginTx ;;
      defer (sql.Rollback tx) (sql.ExecContext tx st ;; sql.Commit tx)) w).
Proof.
  rewrite single_statement_block. apply tx_block_all_or_nothing.
Qed.

Lemma with_ID_same (u : User) : with_ID u (ID u) = u.
Proof. destruct u; reflexivity. Qed.

Lemma tx_block_value {A} (sts : list Stmt) (a a' : A) (w : World) :
  fst ((tx <- sql.BeginTx ;;
        defer (sql.Rollback tx) (exec_all tx sts ;; sql.Commit tx ;; ret a)) w)
  = Ok a' -> a' = a.
Proof.
  unfold bind at 1.
  destruct (sql.BeginTx w) as [[tx|e] w0]; [|discriminate].
  unfold defer, bind, ret.
  destruct (exec_all tx sts w0) as [[[]|e] w1].
  - destruct (sql.Commit tx w1) as [[[]|e] w2];
      destruct (sql.Rollback tx _); simpl; congruence.
  - destruct (sql.Rollback tx _); simpl; congruence.
Qed.

(** [Create] is the block of one INSERT of the prepared object, run
    after the draws. *)
Lemma Create_unfold `{Vendor} (u : User) (plainPassword : string) (w : World) :
  userService.Create u plainPassword w =
  match prepared_user u plainPassword w with
  | Ok u' =>
      (tx <- sql.BeginTx ;;
       defer (sql.Rollback tx)
         (exec_all tx [InsertUser u'] ;; sql.Commit tx ;; ret u'))
        (after_draws u w)
  | Err e => (Err e, after_draws u w)
  end.
Proof.
  unfold userService.Create, prepared_user, password.Hash, after_draws,
    userRepository.Insert, exec_all.
  unfold bind, draw, ret.
  destruct (String.eqb (ID u) ""); cbn [store txs faults clock rand drawn];
    destruct (bcrypt_GenerateFromPassword _ plainPassword) as [hash|e];
    try reflexivity.
  - destruct (sql.BeginTx _) as [[tx|e] w0]; [|reflexivity].
    unfold defer.
    destruct (sql.ExecContext tx _ w0) as [[[]|e] w1]; reflexivity.
  - rewrite with_ID_same.
    destruct (sql.BeginTx _) as [[tx|e] w0]; [|reflexivity].
    unfold defer.
    destruct (sql.ExecContext tx _ w0) as [[[]|e] w1]; reflexivity.
Qed.

Lemma all_or_nothing_after_draws {A} (sts : list Stmt) (u : User) (w : World)
    (run : result A * World) :
  all_or_nothing sts (after_draws u w) run -> all_or_nothing sts w run.
Proof. exact (fun H => H). Qed.

Lemma Create_prepared `{Vendor} (u : User) (plainPassword : string) (w : World) :
  match prepared_user u plainPassword w with
  | Ok u' =>
      all_or_nothing [InsertUser u'] w (userService.Create u plainPassword w)
      /\ (forall a, fst (userService.Create u plainPassword w) = Ok a -> a = u')
  | Err e =>
      fst (userService.Create u plainPassword w) = Err e /\
      store (snd (userService.Create u plainPassword w)) = store w
  end.
Proof.
  rewrite Create_unfold.
  destruct (prepared_user u plainPassword w) as [u'|e].
  - split.
    + apply (all_or_nothing_after_draws _ u), tx_block_all_or_nothing.
    + intros a. apply tx_block_value.
  - split; reflexivity.
Qed.

(** ** Transaction creation as a block *)

Lemma bind_cong {A B} (m m' : M A) (k k' : A -> M B) (w : World) :
  m w = m' w -> (forall a w', k a w' = k' a w') ->
  bind m k w = bind m' k' w.
Proof.
  intros Hm Hk. unfold bind. rewrite Hm.
  destruct (m' w) as [[a|e] w0]; [apply Hk|reflexivity].
Qed.

Lemma bind_assoc {A B C} (m : M A) (k : A -> M B) (h : B -> M C) (w : World) :
  bind (bind m k) h w = bind m (fun a => bind (k a) h) w.
Proof.
  unfold bind. destruct (m w) as [[a|e] w0]; reflexivity.
Qed.

Lemma ret_bind {A B} (a : A) (k : A -> M B) (w : World) :
  bind (ret a) k w = k a w.
Proof. reflexivity. Qed.

Lemma exec_all_app tx a b w :
  exec_all tx (a ++ b) w = (exec_all tx a ;; exec_all tx b) w.
Proof.
  revert w; induction a as [|st a IH]; intros w; simpl.
  - reflexivity.
  - rewrite bind_assoc. apply bind_cong; [reflexivity|].
    intros _ w'. apply IH.
Qed.

Lemma insert_items_script tx id items w :
  insert_items tx id items w
  = exec_all tx (map (fun it => InsertItem (item_row id it)) items) w.
Proof.
  revert w; induction items as [|it items IH]; intros w; simpl.
  - reflexivity.
  - apply bind_cong; [reflexivity|]. intros _ w'. apply IH.
Qed.

Lemma update_statuses_script tx status items w :
  update_statuses tx status items w
  = exec_all tx (map (fun it => UpdateProductStatus (product_id it) status)
                     items) w.
Proof.
  revert w; induction items as [|it items IH]; intros w; simpl.
  - reflexivity.
  - apply bind_cong; [reflexivity|]. intros _ w'. apply IH.
Qed.

Lemma transaction_body_script tx rule t d w :
  (sql.ExecContext tx (InsertTransaction t) ;;
   insert_items tx (t_id t) (sd_items d) ;;
   (if String.eqb (sd_transaction_type d) "sale"
    then update_statuses tx (sale_product_status rule) (sd_items d)
    else ret tt) ;;
   sql.Commit tx ;;
   ret t) w
  = (exec_all tx (transaction_script rule t d) ;; sql.Commit tx ;; ret t) w.
Proof.
  unfold transaction_script. cbn [exec_all].
  rewrite bind_assoc. apply bind_cong; [reflexivity|]. intros _ w0.
  symmetry. rewrite bind_cong with
    (m' := (exec_all tx (map (fun it => InsertItem (item_row (t_id t) it))
                             (sd_items d)) ;;
            exec_all tx (if String.eqb (sd_transaction_type d) "sale"
                         then map (fun it => UpdateProductStatus
                                     (product_id it) (sale_product_status rule))
                                  (sd_items d)
                         else []))%go)
    (k' := fun _ : unit => (sql.Commit tx ;; ret t)%go);
    [|apply exec_all_app|reflexivity].
  rewrite bind_assoc. symmetry.
  apply bind_cong; [apply insert_items_script|]. intros _ w1.
  apply bind_cong; [|reflexivity].
  destruct (String.eqb (sd_transaction_type d) "sale");
    [apply update_statuses_script|reflexivity].
Qed.

Lemma CreateTransaction_unfold `{Vendor} rule d ct w :
  sd_items d <> [] ->
  CreateTransaction rule (mkTransactionReq d ct) w
  = (tx <- sql.BeginTx ;;
     defer (sql.Rollback tx)
       (exec_all tx
          (transaction_script rule
             (header_row rule (uuid_NewString (rand w (drawn w))) d) d) ;;
        sql.Commit tx ;;
        ret (header_row rule (uuid_NewString (rand w (drawn w))) d)))
      (after_draw w).
Proof.
  intros Hne. unfold CreateTransaction. cbn [req_data].
  destruct (sd_items d) as [|it items] eqn:Hitems; [congruence|].
  rewrite <- Hitems.
  rewrite bind_cong with
    (m' := draw) (k' := fun r =>
       (tx <- sql.BeginTx ;;
        defer (sql.Rollback tx)
          (exec_all tx (transaction_script rule
                          (header_row rule (uuid_NewString r) d) d) ;;
           sql.Commit tx ;;
           ret (header_row rule (uuid_NewString r) d)))%go);
    [reflexivity|reflexivity|].
  intros r w'. apply bind_cong; [reflexivity|]. intros tx w0.
  unfold defer. rewrite transaction_body_script. reflexivity.
Qed.

(** ** What a committed transaction script leaves in the tables *)

Lemma apply_stmt_transactions now st s s' :
  keeps_transactions st = true ->
  apply_stmt now st s = Ok s' -> transactions s' = transactions s.
Proof.
  destruct st; cbn [apply_stmt keeps_transactions]; try discriminate;
    intros _;
    repeat match goal with
           | |- context [match invalid_uuid ?l with _ => _ end] =>
               destruct (invalid_uuid l)
           | |- context [if ?b then _ else _] => destruct b
           end;
    intros E; inversion E; reflexivity.
Qed.

Lemma apply_stmt_items now st s s' :
  apply_stmt now st s = Ok s' ->
  transaction_items s' = (transaction_items s ++ appended_items st)%list.
Proof.
  destruct st; cbn [apply_stmt appended_items];
    repeat match goal with
           | |- context [match invalid_uuid ?l with _ => _ end] =>
               destruct (invalid_uuid l)
           | |- context [if ?b then _ else _] => destruct b
           end;
    intros E; inversion E; simpl; rewrite ?app_nil_r; reflexivity.
Qed.

Lemma apply_all_transactions now sts : forall s s',
  forallb keeps_transactions sts = true ->
  apply_all now sts s = Ok s' -> transactions s' = transactions s.
Proof.
  induction sts as [|st sts IH]; simpl; intros s s' Hk E.
  - inversion E; reflexivity.
  - apply andb_prop in Hk as [Hst Hk].
    destruct (apply_stmt now st s) as [s1|e] eqn:A; [|discriminate].
    rewrite (IH _ _ Hk E). eapply apply_stmt_transactions; eauto.
Qed.

Lemma apply_all_items now sts : forall s s',
  apply_all now sts s = Ok s' ->
  transaction_items s' = (transaction_items s ++ flat_map appended_items sts)%list.
Proof.
  induction sts as [|st sts IH]; simpl; intros s s' E.
  - inversion E; rewrite app_nil_r; reflexivity.
  - destruct (apply_stmt now st s) as [s1|e] eqn:A; [|discriminate].
    rewrite (IH _ _ E), (apply_stmt_items _ _ _ _ A), app_assoc. reflexivity.
Qed.

Lemma script_tail_keeps_transactions rule t d :
  forallb keeps_transactions (tl (transaction_script rule t d)) = true.
Proof.
  unfold transaction_script; simpl. rewrite forallb_app.
  apply andb_true_intro; split.
  - induction (sd_items d); simpl; auto.
  - destruct (String.eqb _ _); [induction (sd_items d)|]; simpl; auto.
Qed.

Lemma script_appended_items rule t d :
  flat_map appended_items (transaction_script rule t d)
  = map (item_row (t_id t)) (sd_items d).
Proof.
  unfold transaction_script; simpl. rewrite flat_map_app.
  replace (flat_map appended_items
             (if String.eqb (sd_transaction_type d) "sale"
              then map (fun it => UpdateProductStatus (product_id it)
                                    (sale_product_status rule)) (sd_items d)
              else [])) with (@nil ItemRow).
  - rewrite app_nil_r. induction (sd_items d) as [|it l IH]; simpl; auto.
    rewrite IH. reflexivity.
  - destruct (String.eqb _ _); [induction (sd_items d)|]; simpl; auto.
Qed.

Lemma script_committed rule t d now s s' :
  apply_all now (transaction_script rule t d) s = Ok s' ->
  transactions s' = (transactions s ++ [t])%list /\
  transaction_items s'
  = (transaction_items s ++ map (item_row (t_id t)) (sd_items d))%list.
Proof.
  intros E. split.
  - pose proof (script_tail_keeps_transactions rule t d) as Hk.
    unfold transaction_script in *. simpl in E, Hk.
    destruct (has_transaction (t_id t) s); [discriminate|].
    rewrite (apply_all_transactions _ _ _ _ Hk E). reflexivity.
  - rewrite (apply_all_items _ _ _ _ E), script_appended_items. reflexivity.
Qed.

(** The form's running total is the sum the server computes. *)
Lemma calculateTotal_sum (fd : FormData) (items : list LineItem)
    (l : bool) (e : string) :
  calculateTotal 0 Z.add Z.mul (mkFormState fd items l e) = sum_items items.
Proof.
  unfold calculateTotal; cbn [selectedProducts].
  assert (G : forall acc,
             fold_left (fun total item => total + quantity item * unit_price item)
                       items acc = acc + sum_items items).
  { induction items as [|it items IH]; intros acc; simpl.
    - lia.
    - rewrite IH. lia. }
  rewrite G. lia.
Qed.

(* ================================================================== *)
(** * Transaction creation: the properties *)
(* ================================================================== *)

(** What a run of [CreateTransaction] leaves: on an error the store of
    before; on success the store in which its whole script is applied. *)
Lemma CreateTransaction_outcome `{Vendor} (rule : BusinessRule)
    (req : TransactionReq) (w : World) :
  match CreateTransaction rule req w with
  | (Err _, w') => store w' = store w
  | (Ok t, w') =>
      apply_all (clock w) (transaction_script rule t (req_data req)) (store w)
      = Ok (store w')
  end.
Proof.
  destruct req as [d ct]. cbn [req_data].
  destruct (sd_items d) as [|it items] eqn:Hitems.
  - unfold CreateTransaction. cbn [req_data]. rewrite Hitems. reflexivity.
  - assert (Hne : sd_items d <> []) by (rewrite Hitems; discriminate).
    rewrite (CreateTransaction_unfold rule d ct w Hne).
    set (t := header_row rule _ d).
    pose proof (tx_block_all_or_nothing (transaction_script rule t d) t
                  (after_draw w)) as Hb.
    pose proof (tx_block_value (transaction_script rule t d) t) as Hv.
    unfold all_or_nothing in Hb.
    destruct ((tx <- sql.BeginTx ;; _) (after_draw w)) as [[t'|e] w'] eqn:Run.
    + specialize (Hv t' (after_draw w)). rewrite Run in Hv.
      rewrite (Hv eq_refl). exact Hb.
    + apply Hb.
Qed.

(** The row a successful run returns is the header it computed. *)
Lemma CreateTransaction_returns `{Vendor} (rule : BusinessRule)
    (d : SubmitData Z) (ct : option Z) (w : World) t w' :
  CreateTransaction rule (mkTransactionReq d ct) w = (Ok t, w') ->
  t = header_row rule (uuid_NewString (rand w (drawn w))) d.
Proof.
  intros Run.
  destruct (sd_items d) as [|it items] eqn:Hitems.
  - unfold CreateTransaction in Run. cbn [req_data] in Run.
    rewrite Hitems in Run. discriminate.
  - assert (Hne : sd_items d <> []) by (rewrite Hitems; discriminate).
    rewrite (CreateTransaction_unfold rule d ct w Hne) in Run.
    pose proof (tx_block_value
                  (transaction_script rule
                     (header_row rule (uuid_NewString (rand w (drawn w))) d) d)
                  (header_row rule (uuid_NewString (rand w (drawn w))) d)
                  t (after_draw w)) as Hv.
    rewrite Run in Hv. exact (Hv eq_refl).
Qed.

(** C1: transaction creation is all or nothing.  When any step fails
    (beginning, the header, a line item, a status change, the commit)
    the caller gets an error and the committed store is the one before
    the request; success is reported only when the whole script, header,
    every line item and every status change, is committed. *)
Theorem CreateTransaction_all_or_nothing :
  forall (V : Vendor) (rule : BusinessRule) (req : TransactionReq) (w : World),
    match CreateTransaction rule req w with
    | (Err _, w') => store w' = store w
    | (Ok t, w') =>
        apply_all (clock w) (transaction_script rule t (req_data req)) (store w)
        = Ok (store w')
    end.
Proof.
  intros V rule req w. apply CreateTransaction_outcome.
Qed.

(** C2: a request without line items is refused with the validation
    error before anything is begun or drawn, so the world, and the store
    in it, stays as it was; and the form itself, submitted without a
    product, shows its error and posts nothing, whatever the backend. *)
Theorem empty_transaction_rejected :
  forall (V : Vendor) (rule : BusinessRule)
         (ty customer payment : string) (shipping note : option string)
         (client_total : option Z) (w : World),
    CreateTransaction rule
      (mkTransactionReq (mkSubmitData ty customer payment shipping note [])
                        client_total) w
    = (Err ErrValidation, w)
    /\
    forall (Num B : Type) (post : SubmitData Num -> B -> PostResult * B)
           (fd : FormData) (l : bool) (e : string) (b : B),
      handleSubmit post (mkFormState fd (@nil (Item Num)) l e) b
      = (mkFormState fd [] false "Please select at least one product", b, false).
Proof.
  intros; split; [reflexivity | intros; reflexivity].
Qed.

(** C3: when a transaction is created, the row added to the table of
    transactions carries the sum of quantity x unit_price over the line
    items, each line item is stored with its own product of the two, the
    total a client sent plays no part, and the total the form shows is
    that same sum. *)
Theorem persisted_total_is_sum :
  forall (V : Vendor) (rule : BusinessRule) (d : SubmitData Z)
         (client_total : option Z) (w : World),
    match CreateTransaction rule (mkTransactionReq d client_total) w with
    | (Ok t, w') =>
        transactions (store w') = (transactions (store w) ++ [t])%list /\
        t_total_amount t = sum_items (sd_items d) /\
        transaction_items (store w')
        = (transaction_items (store w)
           ++ map (item_row (t_id t)) (sd_items d))%list
    | (Err _, _) => True
    end
    /\ CreateTransaction rule (mkTransactionReq d client_total) w
       = CreateTransaction rule (mkTransactionReq d None) w
    /\ forall (fd : FormData) (l : bool) (e : string),
         calculateTotal 0 Z.add Z.mul (mkFormState fd (sd_items d) l e)
         = sum_items (sd_items d).
Proof.
  intros V rule d ct w. split; [|split].
  - pose proof (CreateTransaction_outcome rule (mkTransactionReq d ct) w)
      as Hall.
    destruct (CreateTransaction rule (mkTransactionReq d ct) w)
      as [[t|e] w'] eqn:Run; [|exact I].
    cbn [req_data] in Hall.
    apply script_committed in Hall as [Ht Hi].
    repeat split; auto.
    rewrite (CreateTransaction_returns rule d ct w t w' Run). reflexivity.
  - reflexivity.
  - intros; apply calculateTotal_sum.
Qed.

(* ================================================================== *)
(** * CRUD services: the properties *)
(* ================================================================== *)

Lemma surfaces_refl {A} (run : result A * World) (created : A -> Response) :
  surfaces run
    (match run with
     | (Err e, w1) =>
         (Respond (httphelper.JSONError StatusInternalServerError e), w1)
     | (Ok a, w1) => (Respond (created a), w1)
     end) created.
Proof. destruct run as [[a|e] w1]; reflexivity. Qed.

(** C8: every mutating operation on products and users is one store
    transaction.  Either its statement is committed, or the committed
    store is the one before the call and the caller gets the engine's own
    error (a fault of the connection or the refusal of the statement),
    which the handlers pass on as the message of a 500 response. *)
Theorem mutations_all_or_nothing :
  forall (V : Vendor) (w : World),
    (forall p, all_or_nothing [InsertProduct p] w (productService.Create p w)) /\
    (forall p, all_or_nothing [UpdateProduct p] w (productService.Update p w)) /\
    (forall id, all_or_nothing [DeleteProduct id] w (productService.Delete id w)) /\
    (forall u plain,
        match prepared_user u plain w with
        | Ok u' =>
            all_or_nothing [InsertUser u'] w (userService.Create u plain w)
        | Err e =>
            userService.Create u plain w = (Err e, after_draws u w)
        end) /\
    (forall u, all_or_nothing [UpdateUser u] w (userService.Update u w)) /\
    (forall id, all_or_nothing [DeleteUser id] w (userService.Delete id w)) /\
    (forall p c,
        surfaces (productService.Create p w)
                 (handler.CreateProduct (Some p) c w)
                 (fun _ => mkResponse StatusCreated
                             (fiberMap [("message", JStr "Product created")]))) /\
    (forall req c email,
        handler.localEmail c = Ok email ->
        surfaces (userService.Create
                    (mkUser "" (cu_Username req) (cu_Email req) (cu_Role req)
                            (cu_ProfilePhoto req) None "" email zeroTime email
                            zeroTime)
                    (cu_Password req) w)
                 (handler.CreateUser (Some req) c w)
                 (fun u => mkResponse StatusCreated
                             (fiberMap [("id", JStr (ID u))]))) /\
    (forall u c email,
        handler.localEmail c = Ok email ->
        surfaces (userService.Update (with_UpdatedBy u email) w)
                 (handler.UpdateUser (Some u) c w)
                 (fun _ => mkResponse StatusOK
                             (fiberMap [("message", JStr "updated")]))) /\
    (forall c,
        fiber.Params c "id" <> "" ->
        surfaces (userService.Delete (fiber.Params c "id") w)
                 (handler.DeleteUser c w)
                 (fun _ => mkResponse StatusOK
                             (fiberMap [("message", JStr "deleted")]))).
Proof.
  intros V w.
  repeat match goal with |- _ /\ _ => split end.
  - intros p. apply single_statement_all_or_nothing.
  - intros p. apply single_statement_all_or_nothing.
  - intros id. apply single_statement_all_or_nothing.
  - intros u plain. rewrite Create_unfold.
    destruct (prepared_user u plain w) as [u'|e]; [|reflexivity].
    apply (all_or_nothing_after_draws _ u), tx_block_all_or_nothing.
  - intros u. apply single_statement_all_or_nothing.
  - intros id. apply single_statement_all_or_nothing.
  - intros p c. unfold handler.CreateProduct. apply surfaces_refl.
  - intros req c email He. unfold handler.CreateUser. rewrite He.
    apply surfaces_refl.
  - intros u c email He. unfold handler.UpdateUser. rewrite He.
    apply surfaces_refl.
  - intros c Hid. unfold handler.DeleteUser.
    destruct (String.eqb (fiber.Params c "id") "") eqn:E.
    + apply String.eqb_eq in E. contradiction.
    + apply surfaces_refl.
Qed.

Lemma invalid_uuid_none params :
  invalid_uuid params = None <-> forallb is_uuid params = true.
Proof.
  unfold invalid_uuid. induction params as [|x params IH]; simpl.
  - tauto.
  - destruct (is_uuid x); simpl; [exact IH|]. split; discriminate.
Qed.

(** What the engine asks of an INSERT into [users] and what it does. *)
Lemma insert_user_ok now u s s' :
  apply_all now [InsertUser u] s = Ok s' ->
  forallb is_uuid [ID u; CreatedBy u; UpdatedBy u] = true /\
  has_user (ID u) s = false /\
  s' = with_users s (users s ++ [row_of_user now u]).
Proof.
  cbn [apply_all apply_stmt].
  destruct (invalid_uuid [ID u; CreatedBy u; UpdatedBy u]) eqn:Hu;
    [discriminate|].
  apply invalid_uuid_none in Hu.
  destruct (has_user (ID u) s); [discriminate|].
  intros E; inversion E. auto.
Qed.

(** C9: [userService.Create] stores the bcrypt hash, never the password.
    When it succeeds, exactly one row is added to [users]; its
    [password_hash] is a hash bcrypt generated from the plain password,
    its [id] is the caller's, or a drawn UUID when the caller's was
    empty, and every other column comes from the caller's object or the
    clock.  When it fails the store is unchanged. *)
Theorem Create_stores_hash :
  forall (V : Vendor) (u : User) (plainPassword : string) (w : World),
    match userService.Create u plainPassword w with
    | (Ok u', w') =>
        let id := if String.eqb (ID u) ""
                  then uuid_NewString (rand w (drawn w)) else ID u in
        exists salt hash,
          bcrypt_GenerateFromPassword salt plainPassword = Ok hash /\
          u' = with_PasswordHash (with_ID u id) hash /\
          users (store w')
          = (users (store w)
             ++ [mkUserRow id (Username u) hash (Role u) (Some (Email u))
                           (Some (ProfilePhoto u)) (LastLogin u)
                           (Some (CreatedBy u)) (clock w)
                           (Some (UpdatedBy u)) (clock w)])%list /\
          products (store w') = products (store w)
    | (Err _, w') => store w' = store w
    end.
Proof.
  intros V u plain w.
  pose proof (Create_prepared u plain w) as Hp.
  unfold prepared_user in Hp.
  destruct (bcrypt_GenerateFromPassword
              (rand w (if String.eqb (ID u) "" then S (drawn w) else drawn w))
              plain) as [hash|e] eqn:Hhash.
  - destruct Hp as [Hall Hval]. unfold all_or_nothing in Hall.
    destruct (userService.Create u plain w) as [[u'|e] w'];
      cbn [fst snd] in *; [|apply Hall].
    rewrite (Hval u' eq_refl).
    eexists _, hash. split; [exact Hhash|]. split; [reflexivity|].
    apply insert_user_ok in Hall as (_ & _ & ->). split; reflexivity.
  - destruct Hp as [Hf Hs].
    destruct (userService.Create u plain w) as [[u'|e'] w'];
      cbn [fst snd] in *; [discriminate|exact Hs].
Qed.

(* ================================================================== *)
(** * Listing users: the properties *)
(* ================================================================== *)

Lemma insert_desc_perm r l : Permutation (insert_desc r l) (r :: l).
Proof.
  induction l as [|x l IH]; simpl.
  - apply Permutation_refl.
  - destruct (r_created_at x <=? r_created_at r).
    + apply Permutation_refl.
    + eapply Permutation_trans; [apply perm_skip, IH | apply perm_swap].
Qed.

Lemma order_by_perm rows : Permutation (order_by_created_at_desc rows) rows.
Proof.
  induction rows as [|r rows IH]; simpl.
  - constructor.
  - eapply Permutation_trans; [apply insert_desc_perm | apply perm_skip, IH].
Qed.

Lemma insert_desc_sorted r l :
  StronglySorted row_newest_first l ->
  StronglySorted row_newest_first (insert_desc r l).
Proof.
  induction 1 as [|x l Hs IH Hall]; simpl.
  - repeat constructor.
  - destruct (r_created_at x <=? r_created_at r) eqn:C.
    + apply Z.leb_le in C. constructor.
      * constructor; assumption.
      * constructor; [exact C|].
        eapply Forall_impl; [|exact Hall].
        unfold row_newest_first; intros; lia.
    + apply Z.leb_gt in C. constructor; [exact IH|].
      eapply Permutation_Forall;
        [apply Permutation_sym, insert_desc_perm|].
      constructor; [unfold row_newest_first; lia | exact Hall].
Qed.

Lemma order_by_sorted rows :
  StronglySorted row_newest_first (order_by_created_at_desc rows).
Proof.
  induction rows as [|r rows IH]; simpl.
  - constructor.
  - apply insert_desc_sorted, IH.
Qed.

Lemma StronglySorted_skipn {A} (R : A -> A -> Prop) n : forall l,
  StronglySorted R l -> StronglySorted R (skipn n l).
Proof.
  induction n as [|n IH]; intros l Hs; simpl; auto.
  destruct l; [constructor|]. inversion Hs; auto.
Qed.

Lemma firstn_sub {A} n : forall (l : list A) x, In x (firstn n l) -> In x l.
Proof.
  induction n as [|n IH]; intros [|z l] x; simpl; try tauto.
  intros [->|H]; auto.
Qed.

Lemma skipn_sub {A} n : forall (l : list A) x, In x (skipn n l) -> In x l.
Proof.
  induction n as [|n IH]; intros [|z l] x; simpl; try tauto.
  intros H; auto.
Qed.

Lemma StronglySorted_firstn {A} (R : A -> A -> Prop) n : forall l,
  StronglySorted R l -> StronglySorted R (firstn n l).
Proof.
  induction n as [|n IH]; intros l Hs; simpl; [constructor|].
  destruct l as [|x l]; [constructor|].
  inversion Hs as [|? ? Hs' Hall]; subst. constructor; auto.
  rewrite Forall_forall in *. intros y Hy. eapply Hall, firstn_sub, Hy.
Qed.

Lemma List_rows_sorted limit offset s :
  StronglySorted row_newest_first (userRepository.List_rows limit offset s).
Proof.
  unfold userRepository.List_rows.
  apply StronglySorted_firstn, StronglySorted_skipn, order_by_sorted.
Qed.

Lemma List_rows_incl limit offset s :
  incl (userRepository.List_rows limit offset s) (users s).
Proof.
  unfold userRepository.List_rows. intros r Hr.
  eapply Permutation_in; [apply order_by_perm|].
  eapply skipn_sub, firstn_sub, Hr.
Qed.

Lemma scanUserListed_listed r u : scanUserListed r = Ok u -> listed r u.
Proof.
  unfold scanUserListed, rbind, scanString, listed.
  destruct (r_email r), (r_profile_photo r), (r_created_by r),
    (r_updated_by r); intros E; inversion E; subst; simpl;
    repeat split; reflexivity.
Qed.

Lemma scanUserListed_err r e :
  scanUserListed r = Err e ->
  r_email r = None \/ r_profile_photo r = None \/ r_created_by r = None
  \/ r_updated_by r = None.
Proof.
  unfold scanUserListed, rbind, scanString.
  destruct (r_email r), (r_profile_photo r), (r_created_by r),
    (r_updated_by r); intros E; try discriminate; auto.
Qed.

Lemma scanRows_listed rows : forall us,
  scanRows scanUserListed rows = Ok us -> Forall2 listed rows us.
Proof.
  induction rows as [|r rows IH]; simpl; intros us E.
  - inversion E; constructor.
  - unfold rbind in E.
    destruct (scanUserListed r) as [u|e] eqn:S; [|discriminate].
    destruct (scanRows scanUserListed rows) as [out|e]; [|discriminate].
    inversion E; subst. constructor; [apply scanUserListed_listed, S|].
    apply IH; reflexivity.
Qed.

Lemma scanRows_err rows : forall e,
  scanRows scanUserListed rows = Err e ->
  exists r e', In r rows /\ scanUserListed r = Err e'.
Proof.
  induction rows as [|r rows IH]; simpl; intros e E; [discriminate|].
  unfold rbind in E.
  destruct (scanUserListed r) as [u|e1] eqn:S.
  - destruct (scanRows scanUserListed rows) as [out|e2]; [discriminate|].
    destruct (IH e2 eq_refl) as (r' & e' & Hin & Hr'). eauto.
  - eauto.
Qed.

Lemma Forall2_sorted rows us :
  Forall2 listed rows us ->
  StronglySorted row_newest_first rows -> StronglySorted newest_first us.
Proof.
  induction 1 as [|r u rows us Hru Hrest IH]; intros Hs.
  - constructor.
  - inversion Hs as [|? ? Hs' Hall]; subst. constructor; [auto|].
    assert (Hc : CreatedAt u = r_created_at r) by apply Hru.
    clear IH Hs Hs' Hru. induction Hrest as [|r' u' rows us Hru' _ IH'].
    + constructor.
    + inversion Hall; subst. constructor; [|auto].
      assert (Hc' : CreatedAt u' = r_created_at r') by apply Hru'.
      unfold newest_first, row_newest_first in *. lia.
Qed.

Lemma order_by_ordered rows :
  ordered_newest_first rows (order_by_created_at_desc rows).
Proof. split; [apply order_by_perm|apply order_by_sorted]. Qed.

Lemma page_of_sorted limit offset sorted :
  StronglySorted row_newest_first sorted ->
  StronglySorted row_newest_first (page_of limit offset sorted).
Proof.
  intros Hs. apply StronglySorted_firstn, StronglySorted_skipn, Hs.
Qed.

Lemma Query_result {A} (q : Store -> result A) (w : World) r w1 :
  sql.Query q w = (r, w1) ->
  store w1 = store w /\ (r = q (store w) \/ exists e, r = Err e /\ scheduled e w).
Proof.
  unfold sql.Query, bind.
  destruct (roundtrip w) as [[[]|e] w0] eqn:R; intros E; inversion E; subst;
    apply roundtrip_frame in R as (S0 & _ & _ & Hs).
  - rewrite S0. auto.
  - split; [exact S0|]. right. eauto.
Qed.

(** What a listing query leaves and returns, fault by fault. *)
Lemma QueryRows_cases {R A} (q : Store -> result (list R))
    (scan : R -> result A) (w : World) r w' :
  sql.QueryRows q scan w = (r, w') ->
  store w' = store w /\
  ((next_fault w = None /\ r = rbind (q (store w)) (scanRows scan)) \/
   (exists e, next_fault w = Some e /\
      (r = Err e \/
       (exists refused, q (store w) = Err refused /\ r = Err refused) \/
       (exists k rows, q (store w) = Ok rows /\
                       r = scanRows scan (firstn (S k) rows))))).
Proof.
  unfold sql.QueryRows, next_fault.
  destruct (faults w) as [|[e|] fs].
  - intros E; inversion E; subst. auto.
  - destruct (cut w) as [k|].
    + destruct (q (store w)) as [rows|refused] eqn:Q;
        intros E; inversion E; subst; (split; [reflexivity|]); right;
        exists e; (split; [reflexivity|]); right.
      * right. exists k, rows. auto.
      * left. exists refused. auto.
    + intros E; inversion E; subst. split; [reflexivity|]. right. eauto.
  - intros E; inversion E; subst. auto.
Qed.

Lemma QueryRows_quiet {R A} (q : Store -> result (list R))
    (scan : R -> result A) (w : World) :
  next_fault w = None ->
  fst (sql.QueryRows q scan w) = rbind (q (store w)) (scanRows scan) /\
  store (snd (sql.QueryRows q scan w)) = store w.
Proof.
  unfold sql.QueryRows, next_fault.
  destruct (faults w) as [|[e|] fs]; intros E; try discriminate; auto.
Qed.

Lemma firstn_firstn_le {A} (l : list A) k :
  (List.length l <= k)%nat -> firstn k l = l.
Proof. intros H. apply firstn_all2, H. Qed.

Lemma List_rows_page limit offset s :
  userRepository.List_rows limit offset s
  = page_of limit offset (order_by_created_at_desc (users s)).
Proof. reflexivity. Qed.

(** What [List] returns, for the proofs below: the page of the rows in
    their order, or the rows of it that arrived. *)
Lemma List_outcome (limit offset : Z) (w : World) r w' :
  userRepository.List limit offset w = (r, w') ->
  let page := page_of (if limit <=? 0 then 50 else limit) offset
                      (order_by_created_at_desc (users (store w))) in
  store w' = store w /\
  match r with
  | Ok us =>
      exists k,
        Forall2 listed (firstn k page) us /\
        (next_fault w = None -> (List.length page <= k)%nat)
  | Err e =>
      next_fault w = None -> 0 <= offset ->
      exists row, In row page /\ has_null row = true
  end.
Proof.
  intros Run page.
  unfold userRepository.List, userRepository.effective_limit in Run.
  apply QueryRows_cases in Run as [S0 Hr].
  split; [exact S0|].
  rewrite List_rows_page in Hr. fold page in Hr.
  assert (Hnull : forall e,
             scanRows scanUserListed page = Err e ->
             exists row, In row page /\ has_null row = true).
  { intros e E. apply scanRows_err in E as (row & e' & Hin & Hrow).
    exists row. split; [exact Hin|].
    apply scanUserListed_err in Hrow. unfold has_null.
    destruct Hrow as [H | [H | [H | H]]]; rewrite H;
      destruct (r_email row), (r_profile_photo row), (r_created_by row);
      reflexivity. }
  destruct Hr as [[Hq Hr]|(e & Hf & Hr)].
  - destruct (offset <? 0) eqn:C; cbn [rbind] in Hr; subst r.
    + intros _ Hoff. apply Z.ltb_lt in C. lia.
    + destruct (scanRows scanUserListed page) as [us|e] eqn:Scan.
      * exists (List.length page). rewrite firstn_all.
        split; [apply scanRows_listed, Scan|auto].
      * intros _ _. apply (Hnull e eq_refl).
  - destruct Hr as [->|[(refused & Hq & ->)|(k & rows & Hq & ->)]].
    + intros Hn. congruence.
    + intros Hn. congruence.
    + destruct (offset <? 0); [discriminate|]. inversion Hq; subst rows.
      clear Hq.
      destruct (scanRows scanUserListed (firstn (S k) page)) as [us|e1]
        eqn:Scan.
      * exists (S k). split; [apply scanRows_listed, Scan|].
        intros Hn. congruence.
      * intros Hn. congruence.
Qed.

(** C10: [userRepository.List] runs its query with limit 50 when the
    caller's limit is zero or negative, and with the caller's limit
    otherwise.  The users it returns are the rows of the table ordered
    by [created_at], newest first, from the offset on and up to the
    limit, each read column by column; all of them when no round trip
    fails, the first of them when the connection is lost while they
    arrive, which the loop takes for the end of the rows.  Without a
    fault it fails only for a negative offset or a row with a NULL in a
    column read into a string.  The same holds from the handler, where
    the limit is whatever [Atoi] made of the query parameter, zero for a
    text that is no number. *)
Theorem List_limit_and_order :
  forall (limit offset : Z) (w : World),
    (exists sorted,
        ordered_newest_first (users (store w)) sorted /\
        match userRepository.List limit offset w with
        | (Ok us, w') =>
            store w' = store w /\
            exists k,
              Forall2 listed
                (firstn k (page_of (if limit <=? 0 then 50 else limit)
                                   offset sorted)) us /\
              (next_fault w = None ->
               Forall2 listed
                 (page_of (if limit <=? 0 then 50 else limit) offset sorted)
                 us)
        | (Err _, w') =>
            store w' = store w /\
            (next_fault w = None -> 0 <= offset ->
             exists row,
               In row (page_of (if limit <=? 0 then 50 else limit)
                               offset sorted) /\
               has_null row = true)
        end) /\
    match userRepository.List limit offset w with
    | (Ok us, _) =>
        StronglySorted newest_first us /\
        Z.of_nat (List.length us) <= (if limit <=? 0 then 50 else limit)
    | (Err _, _) => True
    end /\
    (limit <= 0 ->
     userRepository.List limit offset w = userRepository.List 50 offset w) /\
    forall (Atoi : string -> Z) (c : Ctx),
      fst (handler.ListUsers Atoi c w)
      = list_response
          (userRepository.List (Atoi (fiber.Query c "limit" "50"))
                               (Atoi (fiber.Query c "offset" "0")) w).
Proof.
  intros limit offset w.
  destruct (userRepository.List limit offset w) as [r w'] eqn:Run.
  pose proof (List_outcome limit offset w r w' Run) as [S0 Hr].
  cbv zeta in Hr.
  set (n := if limit <=? 0 then 50 else limit) in *.
  set (sorted := order_by_created_at_desc (users (store w))) in *.
  assert (Hn : 0 < n).
  { unfold n. destruct (limit <=? 0) eqn:C; [lia|].
    apply Z.leb_gt in C. exact C. }
  split; [|split; [|split]].
  - exists sorted. split; [apply order_by_ordered|].
    destruct r as [us|e].
    + split; [exact S0|]. destruct Hr as (k & Hk & Hall).
      exists k. split; [exact Hk|]. intros Hq.
      rewrite <- (firstn_firstn_le (page_of n offset sorted) k (Hall Hq)).
      exact Hk.
    + split; [exact S0|exact Hr].
  - destruct r as [us|e]; [|exact I].
    destruct Hr as (k & Hk & _). split.
    + eapply Forall2_sorted; [exact Hk|].
      apply StronglySorted_firstn, page_of_sorted, order_by_sorted.
    + rewrite <- (Forall2_length Hk). unfold page_of.
      rewrite !length_firstn. lia.
  - intros Hle. rewrite <- Run.
    unfold userRepository.List, userRepository.effective_limit.
    destruct (limit <=? 0) eqn:C; [reflexivity|]. apply Z.leb_gt in C. lia.
  - intros Atoi c. clear.
    unfold handler.ListUsers, userService.List, list_response.
    destruct (userRepository.List _ _ w) as [[us|e] w1]; reflexivity.
Qed.

(* ================================================================== *)
(** * Authentication: the properties *)
(* ================================================================== *)

Lemma substring_all (s : string) : substring 0 (String.length s) s = s.
Proof. induction s as [|c s IH]; simpl; [|rewrite IH]; reflexivity. Qed.

Lemma ExtractBearerToken_bearer (tok : string) :
  jwtutil.ExtractBearerToken ("Bearer " ++ tok) = tok.
Proof.
  unfold jwtutil.ExtractBearerToken, strings.TrimPrefix, strings.HasPrefix.
  assert (Hp : String.prefix "Bearer " ("Bearer " ++ tok) = true).
  { simpl. destruct tok; reflexivity. }
  rewrite Hp. simpl. rewrite Nat.sub_0_r. apply substring_all.
Qed.





(** The other direction: a token that parses is let through, and the
    handler finds the e-mail claim among the locals. *)
Lemma RequireAuth_dispatches `{Vendor} cfg next c w tok token :
  fiber.Get c "Authorization" = "Bearer " ++ tok ->
  tok <> "" ->
  jwt.Parse tok (JwtSecret cfg) (clock w) = Ok token ->
  jwt.Valid token = true ->
  middleware.RequireAuth cfg next c w
  = next (fiber.SetLocals c "email"
            (match assoc "email" (jwt.Claims token) with
             | Some v => v
             | None => JNull
             end)) w.
Proof.
  intros Hh Hne Hp Hv. unfold middleware.RequireAuth.
  rewrite Hh, ExtractBearerToken_bearer.
  destruct (String.eqb tok "") eqn:E;
    [apply String.eqb_eq in E; contradiction|].
  unfold jwtutil.ValidateJWT, bind, Now. rewrite Hp, Hv. reflexivity.
Qed.

Lemma Query_frame {A} (q : Store -> result A) (w : World) r w1 :
  sql.Query q w = (r, w1) -> store w1 = store w /\ clock w1 = clock w.
Proof.
  unfold sql.Query, bind.
  destruct (roundtrip w) as [[[]|e] w0] eqn:R; intros E; inversion E; subst;
    apply roundtrip_frame in R as (S0 & _ & [C0 _] & _); auto.
Qed.

Lemma Authenticate_unfold `{Vendor} name pw w :
  userService.Authenticate name pw w =
  match userRepository.FindByUsername name w with
  | (Ok u, w1) =>
      match password.Verify pw (PasswordHash u) with
      | Some _ => (Err "invalid credentials", w1)
      | None => (Ok u, w1)
      end
  | (Err e, w1) => (Err e, w1)
  end.
Proof.
  unfold userService.Authenticate, bind.
  destruct (userRepository.FindByUsername name w) as [[u|e] w1];
    [|reflexivity].
  destruct (password.Verify pw (PasswordHash u)); reflexivity.
Qed.

(** Whatever makes [Authenticate] fail, the handler answers the same. *)
Lemma Login_failure `{Vendor} cfg req c w :
  match userService.Authenticate (strings.TrimSpace (lr_Username req))
                                 (lr_Password req) w with
  | (Err _, w1) =>
      handler.LoginWithUserService cfg (Some req) c w
      = (unauthorized "invalid credentials", w1)
  | (Ok u, w1) =>
      handler.LoginWithUserService cfg (Some req) c w
      = match jwt_SignedString "HS256" (login_claims (Username u) (clock w1))
                               (JwtSecret cfg) with
        | Ok token =>
            (Respond (mkResponse StatusOK
                        (login_body token (ID u) (Username u) (Role u)
                                    (Email u))), w1)
        | Err _ =>
            (Respond (httphelper.JSONError StatusInternalServerError
                        "could not generate token"), w1)
        end
  end.
Proof.
  unfold handler.LoginWithUserService.
  destruct (userService.Authenticate _ _ w) as [[u|e] w1]; [|reflexivity].
  unfold jwtutil.GenerateJWT, bind, Now, login_claims.
  destruct (jwt_SignedString _ _ _); reflexivity.
Qed.

(** C4 (as amended): login is by username.  For a user the repository
    finds under the trimmed username, a password that bcrypt accepts for
    the stored hash is answered 200 with the signed token and the user
    object (id, username, role, e-mail); a password that bcrypt refuses
    is answered 401 "invalid credentials", a body without a token. *)
Theorem login_contract :
  forall (V : Vendor) (cfg : Config) (c : Ctx) (w w1 : World)
         (req : loginReq) (u : User),
    userRepository.FindByUsername (strings.TrimSpace (lr_Username req)) w
    = (Ok u, w1) ->
    (password.Verify (lr_Password req) (PasswordHash u) = None ->
     forall token,
       jwt_SignedString "HS256" (login_claims (Username u) (clock w))
                        (JwtSecret cfg) = Ok token ->
       handler.LoginWithUserService cfg (Some req) c w
       = (Respond (mkResponse StatusOK
                     (login_body token (ID u) (Username u) (Role u) (Email u))),
          w1))
    /\
    (forall e,
       password.Verify (lr_Password req) (PasswordHash u) = Some e ->
       handler.LoginWithUserService cfg (Some req) c w
       = (unauthorized "invalid credentials", w1)
       /\ ~ In "token"
              (json_keys (resp_body (httphelper.JSONError StatusUnauthorized
                                       "invalid credentials")))).
Proof.
  intros V cfg c w w1 req u Hfind.
  pose proof (Login_failure cfg req c w) as HL.
  rewrite Authenticate_unfold, Hfind in HL.
  pose proof (Query_frame _ _ _ _ Hfind) as [_ Hclock].
  split.
  - intros Hv token Hsign. rewrite Hv in HL. rewrite Hclock, Hsign in HL.
    exact HL.
  - intros e Hv. rewrite Hv in HL. split; [exact HL|].
    simpl. intros [Hk|[]]. discriminate.
Qed.

(** C6: a failed login does not tell why.  An unknown username, a wrong
    password, and any other failure of [Authenticate] are all answered
    with the same 401 "invalid credentials". *)
Theorem login_failures_alike :
  forall (V : Vendor) (cfg : Config) (c : Ctx) (w : World) (req : loginReq),
    let name := strings.TrimSpace (lr_Username req) in
    let answer := fst (handler.LoginWithUserService cfg (Some req) c w) in
    (find (fun r => String.eqb (r_username r) name) (users (store w)) = None ->
     answer = unauthorized "invalid credentials")
    /\
    (forall u w1 e,
        userRepository.FindByUsername name w = (Ok u, w1) ->
        password.Verify (lr_Password req) (PasswordHash u) = Some e ->
        answer = unauthorized "invalid credentials")
    /\
    (is_ok (fst (userService.Authenticate name (lr_Password req) w)) = false ->
     answer = unauthorized "invalid credentials").
Proof.
  intros V cfg c w req name answer.
  pose proof (Login_failure cfg req c w) as HL. fold name in HL.
  assert (Hgen : is_ok (fst (userService.Authenticate name (lr_Password req) w))
                 = false -> answer = unauthorized "invalid credentials").
  { unfold answer.
    destruct (userService.Authenticate name (lr_Password req) w)
      as [[u|e] w1]; cbn [fst is_ok]; [discriminate|].
    intros _. rewrite HL. reflexivity. }
  repeat split; auto.
  - intros Hnone. apply Hgen. rewrite Authenticate_unfold.
    destruct (userRepository.FindByUsername name w) as [[u|e] w1] eqn:F;
      [|reflexivity].
    apply Query_result in F as [_ [F|(e & F & _)]]; [|discriminate].
    rewrite Hnone in F. discriminate.
  - intros u w1 e Hfind Hv. apply Hgen.
    rewrite Authenticate_unfold, Hfind, Hv. reflexivity.
Qed.

(* ================================================================== *)
(** * The password hash stays on the server: the properties *)
(* ================================================================== *)

Lemma marshalUser_members (u : User) :
  incl (json_keys (marshalUser u)) user_members.
Proof.
  unfold marshalUser, omitempty, omitnil, user_members.
  destruct (String.eqb (Email u) ""), (String.eqb (ProfilePhoto u) ""),
    (LastLogin u), (String.eqb (CreatedBy u) ""),
    (String.eqb (UpdatedBy u) "");
    simpl; intros k Hk;
    repeat (destruct Hk as [<-|Hk]; [simpl; tauto|]); destruct Hk.
Qed.

Lemma roundtrip_rehash f w :
  roundtrip (rehash f w)
  = (fst (roundtrip w), rehash f (snd (roundtrip w))).
Proof.
  unfold roundtrip, rehash. simpl.
  destruct (faults w) as [|[e|] fs]; reflexivity.
Qed.

Lemma find_rehash f (p : UserRow -> bool) rows :
  (forall r, p (rehash_row f r) = p r) ->
  find p (map (rehash_row f) rows) = option_map (rehash_row f) (find p rows).
Proof.
  intros Hp. induction rows as [|r rows IH]; simpl; [reflexivity|].
  rewrite Hp. destruct (p r); [reflexivity|exact IH].
Qed.

Lemma scanUser_rehash f r :
  scanUser (rehash_row f r)
  = match scanUser r with
    | Ok u => Ok (with_PasswordHash u (f r))
    | Err e => Err e
    end.
Proof.
  unfold scanUser, rbind, scanString, rehash_row; simpl.
  destruct (r_email r), (r_profile_photo r), (r_created_by r),
    (r_updated_by r); reflexivity.
Qed.

Lemma insert_desc_rehash f r rows :
  insert_desc (rehash_row f r) (map (rehash_row f) rows)
  = map (rehash_row f) (insert_desc r rows).
Proof.
  induction rows as [|x rows IH]; simpl; [reflexivity|].
  destruct (r_created_at x <=? r_created_at r); simpl; [reflexivity|].
  rewrite IH. reflexivity.
Qed.

Lemma order_by_rehash f rows :
  order_by_created_at_desc (map (rehash_row f) rows)
  = map (rehash_row f) (order_by_created_at_desc rows).
Proof.
  induction rows as [|r rows IH]; simpl; [reflexivity|].
  rewrite IH. apply insert_desc_rehash.
Qed.

Lemma scanRows_rehash f rows :
  scanRows scanUserListed (map (rehash_row f) rows)
  = scanRows scanUserListed rows.
Proof.
  induction rows as [|r rows IH]; simpl; [reflexivity|].
  rewrite IH. reflexivity.
Qed.

Lemma List_rows_rehash f limit offset w :
  userRepository.List_rows limit offset (store (rehash f w))
  = map (rehash_row f) (userRepository.List_rows limit offset (store w)).
Proof.
  unfold userRepository.List_rows, rehash. simpl.
  rewrite order_by_rehash, skipn_map, firstn_map. reflexivity.
Qed.

Lemma GetUserByID_rehash f c w :
  fst (handler.GetUserByID c (rehash f w)) = fst (handler.GetUserByID c w).
Proof.
  unfold handler.GetUserByID.
  destruct (String.eqb (fiber.Params c "id") ""); [reflexivity|].
  unfold userService.FindByID, userRepository.FindByID, sql.Query, bind.
  rewrite roundtrip_rehash.
  destruct (roundtrip w) as [[[]|e] w0]; [|reflexivity].
  cbn [fst snd]. unfold rehash at 1. cbn [store with_store users with_users].
  destruct (invalid_uuid [fiber.Params c "id"]); [reflexivity|].
  rewrite find_rehash by reflexivity.
  destruct (find _ (users (store w0))) as [r|]; [|reflexivity].
  cbn [option_map]. rewrite scanUser_rehash.
  destruct (scanUser r) as [u|e]; reflexivity.
Qed.

Lemma ListUsers_rehash f Atoi c w :
  fst (handler.ListUsers Atoi c (rehash f w))
  = fst (handler.ListUsers Atoi c w).
Proof.
  unfold handler.ListUsers, userService.List, userRepository.List,
    sql.QueryRows.
  change (faults (rehash f w)) with (faults w).
  change (cut (rehash f w)) with (cut w).
  rewrite List_rows_rehash.
  destruct (Atoi (fiber.Query c "offset" "0") <? 0);
    destruct (faults w) as [|[e|] fs]; try destruct (cut w) as [k|];
    cbn [rbind fst]; try reflexivity;
    rewrite ?firstn_map, scanRows_rehash;
    destruct (scanRows scanUserListed _); reflexivity.
Qed.

Lemma Login_ok_body `{Vendor} cfg body c w r w' :
  handler.LoginWithUserService cfg body c w = (Respond r, w') ->
  resp_status r = StatusOK ->
  exists token row u,
    In row (users (store w)) /\ scanUser row = Ok u /\
    resp_body r = login_body token (ID u) (Username u) (Role u) (Email u).
Proof.
  destruct body as [req|]; [|intros E; inversion E; subst; discriminate].
  pose proof (Login_failure cfg req c w) as HL.
  rewrite Authenticate_unfold in HL.
  destruct (userRepository.FindByUsername _ w) as [[u|e] w1] eqn:F.
  - destruct (password.Verify _ _).
    + rewrite HL. intros E; inversion E; subst; discriminate.
    + rewrite HL.
      destruct (jwt_SignedString _ _ _) as [token|e];
        intros E; inversion E; subst; [|discriminate].
      intros _. apply Query_result in F as [_ [F|(e & F & _)]];
        [|discriminate].
      destruct (find _ (users (store w))) as [row|] eqn:Hf; [|discriminate].
      exists token, row, u. apply find_some in Hf as [Hin _]. auto.
  - rewrite HL. intros E; inversion E; subst; discriminate.
Qed.

(** C5: the stored password hash never reaches a client.  The JSON of a
    user has no member for it and is the same whatever the hash is; the
    answers of [GetUserByID] and [ListUsers] are the same in two worlds
    that differ only in the stored hashes; and a successful login answers
    with a token and the id, username, role and e-mail of a stored row,
    nothing else. *)
Theorem password_hash_not_serialized :
  forall (V : Vendor) (f : UserRow -> string) (w : World),
    (forall u h, marshalUser (with_PasswordHash u h) = marshalUser u) /\
    (forall u, incl (json_keys (marshalUser u)) user_members) /\
    (forall c,
        fst (handler.GetUserByID c (rehash f w))
        = fst (handler.GetUserByID c w)) /\
    (forall Atoi c,
        fst (handler.ListUsers Atoi c (rehash f w))
        = fst (handler.ListUsers Atoi c w)) /\
    (forall cfg body c r w',
        handler.LoginWithUserService cfg body c w = (Respond r, w') ->
        resp_status r = StatusOK ->
        exists token row u,
          In row (users (store w)) /\ scanUser row = Ok u /\
          resp_body r = login_body token (ID u) (Username u) (Role u) (Email u)).
Proof.
  intros V f w. split; [|split; [|split; [|split]]].
  - intros u h. reflexivity.
  - apply marshalUser_members.
  - intros c. apply GetUserByID_rehash.
  - intros Atoi c. apply ListUsers_rehash.
  - intros cfg body c r w'. apply Login_ok_body.
Qed.

(* ================================================================== *)
(** * The properties at work *)
(* ================================================================== *)

(** C7, the claim as the specification states it, fails for one kind
    of token: with the [exp] claim taken as the expiry whatever number
    it is, not every request whose token is past it is refused.  A token
    signed with the secret whose [exp] is 0 reaches the handler in
    2023. *)
Lemma exp_zero_token_accepted :
  ~ (forall (V : Vendor) (cfg : Config) (c : Ctx) (w : World) (tok : string),
        fiber.Get c "Authorization" = "Bearer " ++ tok ->
        past_exp (JwtSecret cfg) (clock w) tok ->
        rejects cfg c w).
Proof.
  intros H.
  destruct (H epochVendor exampleConfig
              (mkCtx [("Authorization", "Bearer secret.admin")] [] [] [])
              (quietWorld shop seedTime) "secret.admin" eq_refl)
    as [message Hm].
  - right. exists 0. split; [reflexivity|]. unfold seedTime, second.
    simpl. lia.
  - specialize (Hm (fun _ w0 => (Respond (mkResponse StatusOK JNull), w0))).
    vm_compute in Hm. discriminate Hm.
Qed.

(** C4, the claim as the specification states it, fails: the e-mail
    address is not a username.  Whatever the packages do, whatever hash
    is stored for the administrator (a right one for admin123 included),
    and on the seeded row as well, the login admin@luxtrack.com /
    admin123 is answered 401. *)
Lemma login_by_email_refused :
  ~ exists (V : Vendor) (cfg : Config) (c : Ctx) (now : Time) (s : Store),
      (s = seedStore \/ exists hash, s = adminStore hash) /\
      fst (handler.LoginWithUserService cfg
             (Some (mkLoginReq "admin@luxtrack.com" "admin123")) c
             (quietWorld s now))
      <> unauthorized "invalid credentials".
Proof.
  intros (V & cfg & c & now & s & [->|[hash ->]] & Hans);
    apply Hans; reflexivity.
Qed.

(** With the username, a stored hash of the password and a row that
    reads, the same password is let in, and another one is not. *)
Lemma login_contract_witness :
  @handler.LoginWithUserService exampleVendor exampleConfig
    (Some (mkLoginReq " admin " "admin123")) emptyCtx adminWorld
  = (Respond (mkResponse StatusOK
                (login_body "secret.admin"
                            "11111111-1111-1111-1111-111111111111" "admin"
                            "admin" "admin@luxtrack.com")),
     adminWorld)
  /\
  @handler.LoginWithUserService exampleVendor exampleConfig
    (Some (mkLoginReq "admin" "admin124")) emptyCtx adminWorld
  = (unauthorized "invalid credentials", adminWorld).
Proof.
  split.
  - apply (proj1 (login_contract exampleVendor exampleConfig emptyCtx
                    adminWorld adminWorld (mkLoginReq " admin " "admin123")
                    (adminUser adminHash) eq_refl));
      reflexivity.
  - apply (proj2 (login_contract exampleVendor exampleConfig emptyCtx
                    adminWorld adminWorld (mkLoginReq "admin" "admin124")
                    (adminUser adminHash) eq_refl)
             "crypto/bcrypt: hashedPassword is not the hash of the given password");
      reflexivity.
Defined.

(** The seeded row itself cannot be logged into by username either: its
    columns left NULL do not scan. *)
Example seeded_admin_does_not_scan :
  scanUser seedAdmin = Err ErrScanNull.
Proof. reflexivity. Qed.

(** A sale of a product that exists: header, line item and the new
    status are committed together. *)
Example sale_commits :
  let run := @CreateTransaction exampleVendor exampleRule
               (sale [mkItem bagID 2 150] (Some 7)) (quietWorld shop seedTime) in
  is_ok (fst run) = true /\
  map t_total_amount (transactions (store (snd run))) = [300] /\
  map i_total_price (transaction_items (store (snd run))) = [300] /\
  map pr_status_id (products (store (snd run))) = [Some 3].
Proof. vm_compute. repeat split; reflexivity. Qed.

(** A sale in which one line item names a product that does not exist:
    the header and the first line item had been written, and nothing of
    it is left. *)
Example sale_of_missing_product_rolls_back :
  @CreateTransaction exampleVendor exampleRule
    (sale [mkItem bagID 2 150; mkItem "p9" 1 100] None)
    (quietWorld shop seedTime)
  = (Err ErrForeignKey,
     mkWorld shop [TxDone] [] None seedTime (rand (quietWorld shop seedTime))
             1).
Proof. reflexivity. Qed.

(** A connection lost at the commit leaves the store as it was. *)
Example commit_fault_rolls_back :
  let w := mkWorld shop [] [None; None; None; None; Some "driver: bad connection"]
                   None seedTime (fun _ => "t1") 0 in
  let run := @CreateTransaction exampleVendor exampleRule
               (sale [mkItem bagID 2 150] None) w in
  fst run = Err "driver: bad connection" /\ store (snd run) = shop.
Proof. vm_compute. split; reflexivity. Qed.

(** The middleware on the example tokens: a token signed with the
    secret passes before its expiry and not after; one signed with
    another key never passes. *)
Example middleware_on_tokens :
  let ctx tok := mkCtx [("Authorization", "Bearer " ++ tok)] [] [] [] in
  let seen : Handler := fun c w => (Respond (mkResponse StatusOK JNull), w) in
  let at_ t := quietWorld shop (t * second) in
  fst (@middleware.RequireAuth exampleVendor exampleConfig seen
         (ctx "secret.admin") (at_ (exampleExp - 1)))
  = Respond (mkResponse StatusOK JNull)
  /\ fst (@middleware.RequireAuth exampleVendor exampleConfig seen
            (ctx "secret.admin") (at_ exampleExp))
     = unauthorized "invalid or expired token"
  /\ fst (@middleware.RequireAuth exampleVendor exampleConfig seen
            (ctx "other.admin") (at_ 0))
     = unauthorized "invalid or expired token"
  /\ fst (@middleware.RequireAuth exampleVendor exampleConfig seen
            emptyCtx (at_ 0))
     = unauthorized "Missing or malformed token".
Proof. vm_compute. repeat split; reflexivity. Qed.

(** Listing on a store of two users that scan: newest first, and a
    limit of zero is a limit of fifty. *)
Example list_newest_first :
  let s := mkStore [adminRow "h1"; alice] [] [] [] in
  option_map (map Username)
    (match fst (userRepository.List 0 0 (quietWorld s seedTime)) with
     | Ok us => Some us
     | Err _ => None
     end)
  = Some ["alice"; "admin"].
Proof. reflexivity. Qed.

(** The same listing on a connection that is lost once the first row
    has arrived: the loop takes it for the end of the rows, and the call
    returns one user and no error. *)
Example list_cut_short :
  let s := mkStore [adminRow "h1"; alice] [] [] [] in
  let w := mkWorld s [] [Some "driver: bad connection"] (Some 0%nat) seedTime
                   (fun _ => "") 0 in
  option_map (map Username)
    (match fst (userRepository.List 0 0 w) with
     | Ok us => Some us
     | Err _ => None
     end)
  = Some ["alice"].
Proof. reflexivity. Qed.


(* ================================================================== *)
(** * Further properties: tokens and the middleware *)
(* ================================================================== *)

Lemma prefix_split (p s : string) :
  String.prefix p s = true ->
  p ++ substring (String.length p) (String.length s - String.length p) s = s.
Proof.
  revert s; induction p as [|c p IH]; intros s.
  - intros _. simpl. rewrite Nat.sub_0_r. apply substring_all.
  - destruct s as [|c' s]; simpl; [discriminate|].
    destruct (ascii_dec c c') as [->|]; [|discriminate].
    intros Hp. rewrite (IH s Hp). reflexivity.
Qed.

(** X1: [ExtractBearerToken] undoes exactly the header a client builds:
    it gives back the token behind "Bearer ", and whatever it returns
    that is not empty, the header was "Bearer " followed by it; every
    other header gives the empty string. *)
Theorem ExtractBearerToken_exact :
  forall h : string,
    (forall tok, h = "Bearer " ++ tok -> jwtutil.ExtractBearerToken h = tok) /\
    (h = "Bearer " ++ jwtutil.ExtractBearerToken h \/
     (strings.HasPrefix h "Bearer " = false /\
      jwtutil.ExtractBearerToken h = "")).
Proof.
  intros h. split.
  - intros tok ->. apply ExtractBearerToken_bearer.
  - unfold jwtutil.ExtractBearerToken, strings.TrimPrefix.
    destruct (strings.HasPrefix h "Bearer ") eqn:Hp.
    + left. unfold strings.HasPrefix in Hp.
      symmetry. apply (prefix_split "Bearer " h Hp).
    + right. split; reflexivity.
Qed.

Lemma Parse_ok_valid `{Vendor} tok key now token :
  jwt.Parse tok key now = Ok token -> jwt.Valid token = true.
Proof.
  unfold jwt.Parse.
  destruct (jwt_decode tok) as [[alg claims]|]; [|discriminate].
  destruct (jwt_verify tok alg key); [|discriminate].
  destruct (jwt.validate claims now); [discriminate|].
  intros E; inversion E; reflexivity.
Qed.

Lemma ValidateJWT_unfold `{Vendor} cfg tok w :
  jwtutil.ValidateJWT cfg tok w
  = match jwt.Parse tok (JwtSecret cfg) (clock w) with
    | Ok token => (Ok (jwt.Claims token), w)
    | Err _ => (Err "invalid or expired token", w)
    end.
Proof.
  unfold jwtutil.ValidateJWT, bind, Now.
  destruct (jwt.Parse tok (JwtSecret cfg) (clock w)) as [token|e] eqn:P;
    [|reflexivity].
  rewrite (Parse_ok_valid _ _ _ _ P). reflexivity.
Qed.

(** X2: what the middleware does, in full.  Either it answers 401
    itself in the world it was given, which it does exactly when the
    header yields no token or [jwt.Parse] refuses it; or it hands the
    request to the handler, in the same world, with nothing changed but
    the local "email", set to that claim of the token (null when the
    token has none), and returns what the handler returns. *)
Theorem RequireAuth_outcomes :
  forall (V : Vendor) (cfg : Config) (next : Handler) (c : Ctx) (w : World),
    let tok := jwtutil.ExtractBearerToken (fiber.Get c "Authorization") in
    ((tok = "" \/ exists e, jwt.Parse tok (JwtSecret cfg) (clock w) = Err e)
     /\ rejects cfg c w)
    \/
    (tok <> "" /\
     exists token,
       jwt.Parse tok (JwtSecret cfg) (clock w) = Ok token /\
       middleware.RequireAuth cfg next c w
       = next (mkCtx (ctx_headers c) (ctx_params c) (ctx_query c)
                     (("email", email_claim (jwt.Claims token)) :: ctx_locals c))
              w).
Proof.
  intros V cfg next c w tok.
  destruct (String.eqb tok "") eqn:E.
  - left. apply String.eqb_eq in E. split; [left; exact E|].
    exists "Missing or malformed token". intros nx.
    unfold middleware.RequireAuth. fold tok. rewrite E. reflexivity.
  - destruct (jwt.Parse tok (JwtSecret cfg) (clock w)) as [token|e] eqn:P.
    + right. split.
      * intros ->. discriminate.
      * exists token. split; [reflexivity|].
        unfold middleware.RequireAuth. fold tok. rewrite E.
        rewrite ValidateJWT_unfold, P. reflexivity.
    + left. split; [right; eauto|].
      exists "invalid or expired token". intros nx.
      unfold middleware.RequireAuth. fold tok. rewrite E.
      rewrite ValidateJWT_unfold, P. reflexivity.
Qed.

Lemma expiry_bounds (issued : Time) :
  issued + 24 * hour - second < expiry issued <= issued + 24 * hour.
Proof.
  unfold expiry, Unix.
  assert (Hs : 0 < second) by (unfold second; lia).
  pose proof (Z.mul_div_le (issued + 24 * hour) second Hs).
  pose proof (Z.mul_succ_div_gt (issued + 24 * hour) second Hs).
  lia.
Qed.

Lemma validate_login_claims email issued now :
  jwt.validate (login_claims email issued) now
  = if Unix (issued + 24 * hour) =? 0 then None
    else if now <? expiry issued then None else Some jwt.ErrTokenExpired.
Proof.
  assert (Hexp : assoc "exp" (login_claims email issued)
                 = Some (JNum (Unix (issued + 24 * hour)))) by reflexivity.
  assert (Hnbf : assoc "nbf" (login_claims email issued) = None)
    by reflexivity.
  unfold jwt.validate, jwt.verifyExpiresAt, jwt.verifyNotBefore,
    jwt.parseNumericDate, expiry. rewrite Hexp, Hnbf.
  destruct (Unix (issued + 24 * hour) =? 0); [reflexivity|].
  destruct (now <? Unix (issued + 24 * hour) * second); reflexivity.
Qed.

Lemma expiry_zero (issued : Time) :
  expiry issued = 0 <-> Unix (issued + 24 * hour) = 0.
Proof. unfold expiry, second. lia. Qed.

(** X3: the life of a token.  A token [GenerateJWT] made at some
    instant, which the JWT package decodes to the claims it signed and
    verifies under the secret, is accepted by [ValidateJWT] while the
    clock is before its expiry, the issue time plus 24 hours cut down to
    a whole second, and refused from then on: it is accepted for more
    than 24 hours less a second and never at 24 hours or later.  The one
    exception is a token issued in the second whose expiry is second 0
    of the epoch: the package reads an [exp] of 0 as no expiry, and that
    token is accepted at every time. *)
Theorem token_lifetime :
  forall (V : Vendor) (cfg : Config) (email : string) (w w1 w2 : World)
         (tok alg : string),
    jwtutil.GenerateJWT cfg email w = (Ok tok, w1) ->
    jwt_decode tok = Some (alg, login_claims email (clock w)) ->
    jwt_verify tok alg (JwtSecret cfg) = true ->
    (clock w2 < expiry (clock w) ->
     jwtutil.ValidateJWT cfg tok w2
     = (Ok (login_claims email (clock w)), w2)) /\
    (expiry (clock w) <= clock w2 -> expiry (clock w) <> 0 ->
     jwtutil.ValidateJWT cfg tok w2 = (Err "invalid or expired token", w2)) /\
    (expiry (clock w) = 0 ->
     jwtutil.ValidateJWT cfg tok w2
     = (Ok (login_claims email (clock w)), w2)) /\
    clock w + 24 * hour - second < expiry (clock w) <= clock w + 24 * hour.
Proof.
  intros V cfg email w w1 w2 tok alg _ Hd Hv.
  assert (HP : jwt.Parse tok (JwtSecret cfg) (clock w2)
               = if (Unix (clock w + 24 * hour) =? 0)
                    || (clock w2 <? expiry (clock w))
                 then Ok (jwt.mkToken (login_claims email (clock w)) true)
                 else Err jwt.ErrTokenExpired).
  { unfold jwt.Parse. rewrite Hd, Hv, validate_login_claims.
    destruct (Unix (clock w + 24 * hour) =? 0); [reflexivity|].
    destruct (clock w2 <? expiry (clock w)); reflexivity. }
  split; [|split; [|split]].
  - intros Hlt. rewrite ValidateJWT_unfold, HP.
    apply Z.ltb_lt in Hlt. rewrite Hlt, orb_true_r. reflexivity.
  - intros Hge Hnz. rewrite ValidateJWT_unfold, HP.
    apply Z.ltb_ge in Hge. rewrite Hge.
    destruct (Unix (clock w + 24 * hour) =? 0) eqn:Z0; [|reflexivity].
    apply Z.eqb_eq, expiry_zero in Z0. contradiction.
  - intros Hz. rewrite ValidateJWT_unfold, HP.
    apply expiry_zero, Z.eqb_eq in Hz. rewrite Hz. reflexivity.
  - apply expiry_bounds.
Qed.

Lemma token_lifetime_witness :
  (@jwtutil.ValidateJWT exampleVendor exampleConfig "secret.admin"
     (quietWorld shop (exampleIssued + 23 * hour))
   = (Ok (login_claims "admin" exampleIssued),
      quietWorld shop (exampleIssued + 23 * hour)))
  /\
  (@jwtutil.ValidateJWT exampleVendor exampleConfig "secret.admin"
     (quietWorld shop (exampleIssued + 24 * hour))
   = (Err "invalid or expired token",
      quietWorld shop (exampleIssued + 24 * hour))).
Proof.
  pose proof (fun w2 =>
    token_lifetime exampleVendor exampleConfig "admin"
      (quietWorld shop exampleIssued) (quietWorld shop exampleIssued) w2
      "secret.admin" "HS256" eq_refl eq_refl eq_refl) as H.
  split.
  - apply (proj1 (H (quietWorld shop (exampleIssued + 23 * hour)))).
    reflexivity.
  - apply (proj1 (proj2 (H (quietWorld shop (exampleIssued + 24 * hour)))));
      discriminate.
Defined.

(** X4: logging in and then calling a protected route.  When a login
    succeeds and the token it signed decodes to the claims it carries
    and verifies under the secret, a request bearing that token before
    its expiry reaches the handler, and what the handler finds under
    "email" is the user's username, not the e-mail address. *)
Theorem login_then_request :
  forall (V : Vendor) (cfg : Config) (c0 c : Ctx) (w w1 w2 : World)
         (req : loginReq) (u : User) (tok alg : string) (next : Handler),
    userService.Authenticate (strings.TrimSpace (lr_Username req))
                             (lr_Password req) w = (Ok u, w1) ->
    jwt_SignedString "HS256" (login_claims (Username u) (clock w1))
                     (JwtSecret cfg) = Ok tok ->
    jwt_decode tok = Some (alg, login_claims (Username u) (clock w1)) ->
    jwt_verify tok alg (JwtSecret cfg) = true ->
    tok <> "" ->
    fiber.Get c "Authorization" = "Bearer " ++ tok ->
    clock w2 < expiry (clock w1) ->
    handler.LoginWithUserService cfg (Some req) c0 w
    = (Respond (mkResponse StatusOK
                  (login_body tok (ID u) (Username u) (Role u) (Email u))), w1)
    /\
    middleware.RequireAuth cfg next c w2
    = next (fiber.SetLocals c "email" (JStr (Username u))) w2.
Proof.
  intros V cfg c0 c w w1 w2 req u tok alg next Hauth Hsign Hd Hv Hne Hh Hlt.
  split.
  - pose proof (Login_failure cfg req c0 w) as HL.
    rewrite Hauth, Hsign in HL. exact HL.
  - unfold middleware.RequireAuth.
    rewrite Hh, ExtractBearerToken_bearer.
    destruct (String.eqb tok "") eqn:E;
      [apply String.eqb_eq in E; contradiction|].
    rewrite ValidateJWT_unfold. unfold jwt.Parse.
    rewrite Hd, Hv, validate_login_claims.
    apply Z.ltb_lt in Hlt. rewrite Hlt.
    destruct (Unix (clock w1 + 24 * hour) =? 0); reflexivity.
Qed.

Lemma login_then_request_witness :
  @middleware.RequireAuth exampleVendor exampleConfig
    (fun c w => (Respond (mkResponse StatusOK (email_claim (ctx_locals c))), w))
    (mkCtx [("Authorization", "Bearer secret.admin")] [] [] [])
    (quietWorld shop (exampleIssued + hour))
  = (Respond (mkResponse StatusOK (JStr "admin")),
     quietWorld shop (exampleIssued + hour)).
Proof.
  apply (proj2 (login_then_request exampleVendor exampleConfig emptyCtx
                  (mkCtx [("Authorization", "Bearer secret.admin")] [] [] [])
                  (quietWorld (adminStore adminHash) exampleIssued)
                  (quietWorld (adminStore adminHash) exampleIssued)
                  (quietWorld shop (exampleIssued + hour))
                  (mkLoginReq "admin" "admin123") (adminUser adminHash)
                  "secret.admin" "HS256"
                  (fun c w => (Respond (mkResponse StatusOK
                                          (email_claim (ctx_locals c))), w))
                  eq_refl eq_refl eq_refl eq_refl
                  (fun H => match H with eq_refl => I end)
                  eq_refl eq_refl)).
Defined.

(* ================================================================== *)
(** * Further properties: users in the store *)
(* ================================================================== *)











Lemma single_statement_outcome (st : Stmt) (w : World) r w' :
  (tx <- sql.BeginTx ;;
   defer (sql.Rollback tx) (sql.ExecContext tx st ;; sql.Commit tx)) w
  = (r, w') ->
  match r with
  | Ok _ => apply_stmt (clock w) st (store w) = Ok (store w')
  | Err e =>
      store w' = store w /\
      (scheduled e w \/ apply_stmt (clock w) st (store w) = Err e)
  end.
Proof.
  intros Run. pose proof (single_statement_all_or_nothing st w) as H.
  rewrite Run in H. unfold all_or_nothing in H. cbn [fst snd] in H.
  simpl in H. destruct r as [[]|e].
  - destruct (apply_stmt (clock w) st (store w)); [exact H|discriminate].
  - destruct H as [Hs [Hf|Ha]]; split; auto. right.
    destruct (apply_stmt (clock w) st (store w)); [discriminate|exact Ha].
Qed.








(** With nothing scheduled to fail, a statement the engine refuses
    comes back with the engine's error and nothing is changed. *)
Lemma single_statement_refused (st : Stmt) (w : World) e :
  faults w = [] ->
  apply_stmt (clock w) st (store w) = Err e ->
  exists w',
    (tx <- sql.BeginTx ;;
     defer (sql.Rollback tx) (sql.ExecContext tx st ;; sql.Commit tx)) w
    = (Err e, w') /\ store w' = store w.
Proof.
  intros Hq Ha.
  destruct ((tx <- sql.BeginTx ;;
             defer (sql.Rollback tx) (sql.ExecContext tx st ;; sql.Commit tx)) w)
    as [r w'] eqn:Run.
  pose proof (single_statement_outcome st w r w' Run) as H.
  destruct r as [[]|e'].
  - congruence.
  - destruct H as [Hs [Hf|He]].
    + unfold scheduled in Hf. rewrite Hq in Hf. destruct Hf.
    + exists w'. split; [congruence|exact Hs].
Qed.







Lemma scanUserListed_null r :
  has_null r = true -> scanUserListed r = Err ErrScanNull.
Proof.
  unfold has_null, scanUserListed, rbind, scanString.
  destruct (r_email r), (r_profile_photo r), (r_created_by r),
    (r_updated_by r); intros E; try discriminate; reflexivity.
Qed.

Lemma scanUser_null r :
  has_null r = true -> scanUser r = Err ErrScanNull.
Proof.
  unfold has_null, scanUser, rbind, scanString.
  destruct (r_email r), (r_profile_photo r), (r_created_by r),
    (r_updated_by r); intros E; try discriminate; reflexivity.
Qed.

Lemma scanUserListed_cases r :
  (exists u, scanUserListed r = Ok u) \/ scanUserListed r = Err ErrScanNull.
Proof.
  unfold scanUserListed, rbind, scanString.
  destruct (r_email r), (r_profile_photo r), (r_created_by r),
    (r_updated_by r); eauto.
Qed.

Lemma scanRows_null rows r :
  In r rows -> has_null r = true ->
  scanRows scanUserListed rows = Err ErrScanNull.
Proof.
  induction rows as [|x rows IH]; simpl; [tauto|].
  intros [->|Hin] Hn.
  - rewrite (scanUserListed_null r Hn). reflexivity.
  - destruct (scanUserListed_cases x) as [[u ->]| ->]; [|reflexivity].
    simpl. rewrite (IH Hin Hn). reflexivity.
Qed.

(** X10: one row with a NULL spoils a whole listing.  When a row of the
    page [List] selects has NULL in [email], [profile_photo],
    [created_by] or [updated_by], the call returns the scan error and no
    user at all, and [ListUsers] answers 500; the row the migration
    seeds is such a row. *)
Theorem List_fails_on_null :
  forall (limit offset : Z) (Atoi : string -> Z) (c : Ctx) (w : World)
         (r : UserRow),
    next_fault w = None ->
    0 <= offset ->
    In r (userRepository.List_rows (userRepository.effective_limit limit)
                                   offset (store w)) ->
    has_null r = true ->
    fst (userRepository.List limit offset w) = Err ErrScanNull /\
    (Atoi (fiber.Query c "limit" "50") = limit ->
     Atoi (fiber.Query c "offset" "0") = offset ->
     fst (handler.ListUsers Atoi c w)
     = Respond (httphelper.JSONError StatusInternalServerError ErrScanNull)).
Proof.
  intros limit offset Atoi c w r Hq Hoff Hin Hn.
  assert (HL : fst (userRepository.List limit offset w) = Err ErrScanNull).
  { unfold userRepository.List.
    rewrite (proj1 (QueryRows_quiet _ scanUserListed w Hq)).
    destruct (offset <? 0) eqn:C; [apply Z.ltb_lt in C; lia|].
    cbn [rbind]. eapply scanRows_null; eauto. }
  split; [exact HL|].
  intros Hl Ho. unfold handler.ListUsers, userService.List. rewrite Hl, Ho.
  destruct (userRepository.List limit offset w) as [[us|e] w1];
    cbn [fst] in HL; [discriminate|].
  inversion HL; subst. reflexivity.
Qed.

Lemma List_fails_on_null_witness :
  fst (userRepository.List 0 0 (quietWorld (mkStore [alice; seedAdmin] [] [] [])
                                           seedTime))
  = Err ErrScanNull.
Proof.
  apply (proj1 (List_fails_on_null 0 0 (fun _ => 0) emptyCtx
                  (quietWorld (mkStore [alice; seedAdmin] [] [] []) seedTime)
                  seedAdmin eq_refl (Z.le_refl 0)
                  (or_intror (or_introl eq_refl)) eq_refl)).
Defined.

(** X11: a user whose row has a NULL cannot get in.  When the first
    row with the username has NULL in one of the four text columns, a
    login under that username is answered 401 whatever the password and
    whatever bcrypt would say, and [GetUserByID] of such a row answers
    404. *)
Theorem null_row_locked_out :
  forall (V : Vendor) (cfg : Config) (c : Ctx) (w : World) (req : loginReq)
         (r : UserRow),
    has_null r = true ->
    (find (fun x => String.eqb (r_username x)
                      (strings.TrimSpace (lr_Username req)))
          (users (store w)) = Some r ->
     fst (handler.LoginWithUserService cfg (Some req) c w)
     = unauthorized "invalid credentials") /\
    (find (fun x => String.eqb (r_id x) (fiber.Params c "id"))
          (users (store w)) = Some r ->
     fiber.Params c "id" <> "" ->
     fst (handler.GetUserByID c w)
     = Respond (httphelper.JSONError StatusNotFound "user not found")).
Proof.
  intros V cfg c w req r Hn. split.
  - intros Hf. pose proof (Login_failure cfg req c w) as HL.
    rewrite Authenticate_unfold in HL.
    destruct (userRepository.FindByUsername _ w) as [[u|e] w1] eqn:F.
    + apply Query_result in F as [_ [F|(e & F & _)]]; [|discriminate].
      rewrite Hf, (scanUser_null r Hn) in F. discriminate.
    + rewrite HL. reflexivity.
  - intros Hf Hne. unfold handler.GetUserByID.
    destruct (String.eqb (fiber.Params c "id") "") eqn:E;
      [apply String.eqb_eq in E; contradiction|].
    unfold userService.FindByID, userRepository.FindByID.
    destruct (sql.Query _ w) as [[u|e] w1] eqn:Q; [|reflexivity].
    apply Query_result in Q as [_ [Q|(e & Q & _)]]; [|discriminate].
    destruct (invalid_uuid [fiber.Params c "id"]); [discriminate|].
    rewrite Hf, (scanUser_null r Hn) in Q. discriminate.
Qed.

Lemma null_row_locked_out_witness :
  fst (@handler.LoginWithUserService exampleVendor exampleConfig
         (Some (mkLoginReq "admin" "admin123")) emptyCtx
         (quietWorld seedStore seedTime))
  = unauthorized "invalid credentials".
Proof.
  apply (proj1 (null_row_locked_out exampleVendor exampleConfig emptyCtx
                  (quietWorld seedStore seedTime)
                  (mkLoginReq "admin" "admin123") seedAdmin eq_refl)).
  reflexivity.
Defined.

(* ================================================================== *)
(** * Further properties: products *)
(* ================================================================== *)

(** The table of migration 001 has no column of the name the product
    repository starts each of its statements with. *)
Example product_id_is_no_column :
  undefined_column insert_product_names products_columns = Some "product_id" /\
  undefined_column select_product_names products_columns = Some "product_id" /\
  undefined_column update_product_names products_columns = Some "product_id" /\
  undefined_column delete_product_names products_columns = Some "product_id".
Proof. repeat split; reflexivity. Qed.

Lemma statement_always_refused (st : Stmt) (w : World) r w' :
  (forall s, exists e, apply_stmt (clock w) st s = Err e) ->
  (tx <- sql.BeginTx ;;
   defer (sql.Rollback tx) (sql.ExecContext tx st ;; sql.Commit tx)) w
  = (r, w') ->
  (exists e, r = Err e) /\ store w' = store w.
Proof.
  intros Href Run. apply single_statement_outcome in Run.
  destruct (Href (store w)) as [e He].
  destruct r as [[]|e'].
  - congruence.
  - split; [eauto|apply Run].
Qed.

(** X12: on the schema of migration 001 no product endpoint works.
    Every statement of the product repository names the column
    [product_id], which the table [products] does not have, and the
    engine refuses it.  So [CreateProduct] with a body and
    [GetAllProducts] answer 500 in every world, never 201 or 200, the
    services [Update] and [Delete] return an error, and the store is
    left as it was; with no fault scheduled the message of the 500 is
    the refusal of the engine. *)
Theorem product_endpoints_refused :
  forall (p : Product) (id : string) (c : Ctx) (w : World),
    (exists e,
        fst (handler.CreateProduct (Some p) c w)
        = Respond (httphelper.JSONError StatusInternalServerError e)) /\
    (exists e,
        fst (handler.GetAllProducts c w)
        = Respond (httphelper.JSONError StatusInternalServerError e)) /\
    (exists e, fst (productService.Update p w) = Err e) /\
    (exists e, fst (productService.Delete id w) = Err e) /\
    (store (snd (handler.CreateProduct (Some p) c w)) = store w /\
     store (snd (handler.GetAllProducts c w)) = store w /\
     store (snd (productService.Update p w)) = store w /\
     store (snd (productService.Delete id w)) = store w) /\
    (next_fault w = None ->
     fst (handler.GetAllProducts c w)
     = Respond (httphelper.JSONError StatusInternalServerError
                  (ErrUndefinedColumn "product_id"))) /\
    (faults w = [] ->
     fst (handler.CreateProduct (Some p) c w)
     = Respond (httphelper.JSONError StatusInternalServerError
                  (ErrUndefinedColumnOf "product_id" "products"))).
Proof.
  intros p id c w.
  assert (HC : exists e w',
             productService.Create p w = (Err e, w') /\ store w' = store w).
  { destruct (productService.Create p w) as [r w'] eqn:Run.
    unfold productService.Create, productRepository.Insert in Run.
    apply statement_always_refused in Run as [[e ->] Hs];
      [eauto|intros s0; eexists; reflexivity]. }
  assert (HU : exists e w',
             productService.Update p w = (Err e, w') /\ store w' = store w).
  { destruct (productService.Update p w) as [r w'] eqn:Run.
    unfold productService.Update, productRepository.Update in Run.
    apply statement_always_refused in Run as [[e ->] Hs];
      [eauto|intros s0; eexists; reflexivity]. }
  assert (HD : exists e w',
             productService.Delete id w = (Err e, w') /\ store w' = store w).
  { destruct (productService.Delete id w) as [r w'] eqn:Run.
    unfold productService.Delete, productRepository.Delete in Run.
    apply statement_always_refused in Run as [[e ->] Hs];
      [eauto|intros s0; eexists; reflexivity]. }
  assert (HF : exists e w',
             productService.FindAll w = (Err e, w') /\ store w' = store w).
  { destruct (productService.FindAll w) as [r w'] eqn:Run.
    unfold productService.FindAll, productRepository.SelectAll in Run.
    apply QueryRows_cases in Run as [Hs Hr].
    unfold select_products in Hr. cbn [rbind] in Hr.
    destruct Hr as [[_ ->]|(e & _ & [->|[(refused & _ & ->)|(k & rows & Hq & _)]])];
      [eauto|eauto|eauto|discriminate]. }
  destruct HC as (eC & wC & RC & SC). destruct HU as (eU & wU & RU & SU).
  destruct HD as (eD & wD & RD & SD). destruct HF as (eF & wF & RF & SF).
  unfold handler.CreateProduct, handler.GetAllProducts.
  rewrite RC, RU, RD. cbn [fst snd].
  repeat match goal with |- _ /\ _ => split end; eauto.
  - rewrite RF. eexists; reflexivity.
  - rewrite RF. exact SF.
  - intros Hq. unfold productService.FindAll, productRepository.SelectAll.
    rewrite (surjective_pairing (sql.QueryRows select_products scanProduct w)).
    rewrite (proj1 (QueryRows_quiet select_products scanProduct w Hq)).
    reflexivity.
  - intros Hq.
    destruct (single_statement_refused (InsertProduct p) w _ Hq eq_refl)
      as (w1 & Run & _).
    unfold productService.Create, productRepository.Insert in RC.
    rewrite Run in RC. inversion RC. reflexivity.
Qed.

(** What [userService.Create] does with a creator or an updater that is
    no UUID: the INSERT is refused. *)
Lemma Create_refused `{Vendor} u plain w :
  forallb is_uuid [CreatedBy u; UpdatedBy u] = false ->
  exists e w',
    userService.Create u plain w = (Err e, w') /\ store w' = store w.
Proof.
  intros Hbad. pose proof (Create_prepared u plain w) as Hp.
  destruct (userService.Create u plain w) as [[u'|e] w'] eqn:Run;
    cbn [fst snd] in Hp.
  - exfalso. unfold prepared_user in Hp.
    destruct (bcrypt_GenerateFromPassword _ plain) as [hash|e];
      [|destruct Hp; discriminate].
    destruct Hp as [Hall _]. unfold all_or_nothing in Hall.
    cbn [fst snd] in Hall. apply insert_user_ok in Hall as (Hu & _).
    cbn [forallb CreatedBy UpdatedBy with_PasswordHash with_ID] in Hu, Hbad.
    apply andb_prop in Hu as [_ Hu]. congruence.
  - exists e, w'. split; [reflexivity|].
    destruct (prepared_user u plain w); unfold all_or_nothing in Hp;
      cbn [fst snd] in Hp; apply Hp.
Qed.

(** X13: who may create or update a user.  [CreateUser] and
    [UpdateUser] write the local "email" of the request to the columns
    [created_by] and [updated_by], which are of type UUID.  When that
    text is no UUID, and behind the middleware it is the username the
    token was made for, they answer 500 in every world and the store is
    left as it was: only a caller whose username is written like a UUID
    can create or update a user. *)
Theorem audit_columns_refuse_usernames :
  forall (V : Vendor) (req : createUserReq) (u : User) (c : Ctx)
         (email : string) (w : World),
    handler.localEmail c = Ok email ->
    is_uuid email = false ->
    (exists e,
        fst (handler.CreateUser (Some req) c w)
        = Respond (httphelper.JSONError StatusInternalServerError e)) /\
    store (snd (handler.CreateUser (Some req) c w)) = store w /\
    (exists e,
        fst (handler.UpdateUser (Some u) c w)
        = Respond (httphelper.JSONError StatusInternalServerError e)) /\
    store (snd (handler.UpdateUser (Some u) c w)) = store w.
Proof.
  intros V req u c email w He Hbad.
  unfold handler.CreateUser, handler.UpdateUser. rewrite He.
  destruct (Create_refused
              (mkUser "" (cu_Username req) (cu_Email req) (cu_Role req)
                      (cu_ProfilePhoto req) None "" email zeroTime email
                      zeroTime) (cu_Password req) w)
    as (e1 & w1 & R1 & S1).
  { cbn [forallb CreatedBy UpdatedBy]. rewrite Hbad. reflexivity. }
  rewrite R1. cbn [fst snd].
  destruct (userService.Update (with_UpdatedBy u email) w) as [r w2] eqn:Run.
  unfold userService.Update, userRepository.Update in Run.
  apply statement_always_refused in Run as [[e2 ->] S2].
  - cbn [fst snd]. repeat split; eauto.
  - intros s0. cbn [apply_stmt]. unfold invalid_uuid.
    cbn [find UpdatedBy with_UpdatedBy]. rewrite Hbad. eexists; reflexivity.
Qed.

Lemma audit_columns_refuse_usernames_witness :
  exists e,
    fst (@handler.CreateUser exampleVendor
           (Some (mkCreateUserReq "bob" "bob@luxtrack.com" "staff" ""
                                  "hunter2"))
           (mkCtx [] [] [] [("email", JStr "admin")])
           (quietWorld seedStore seedTime))
    = Respond (httphelper.JSONError StatusInternalServerError e).
Proof.
  apply (proj1 (audit_columns_refuse_usernames exampleVendor
                  (mkCreateUserReq "bob" "bob@luxtrack.com" "staff" ""
                                   "hunter2")
                  zeroUser (mkCtx [] [] [] [("email", JStr "admin")]) "admin"
                  (quietWorld seedStore seedTime) eq_refl eq_refl)).
Defined.

(** The same request, run: the message is the refusal of the engine. *)
Example admin_cannot_create_users :
  fst (@handler.CreateUser exampleVendor
         (Some (mkCreateUserReq "bob" "bob@luxtrack.com" "staff" "" "hunter2"))
         (mkCtx [] [] [] [("email", JStr "admin")])
         (quietWorld seedStore seedTime))
  = Respond (httphelper.JSONError StatusInternalServerError
               (ErrInvalidUUID "admin")).
Proof. reflexivity. Qed.



(* ================================================================== *)
(** * Further properties: the reading handlers and the login *)
(* ================================================================== *)

Lemma GetUserByID_cases (c : Ctx) (w : World) :
  (fst (handler.GetUserByID c w)
   = Respond (httphelper.JSONError StatusBadRequest "missing id")
   \/ fst (handler.GetUserByID c w)
      = Respond (httphelper.JSONError StatusNotFound "user not found")
   \/ exists r u,
        In r (users (store w)) /\ r_id r = fiber.Params c "id" /\
        scanUser r = Ok u /\
        fst (handler.GetUserByID c w)
        = Respond (mkResponse StatusOK (marshalUser u))) /\
  store (snd (handler.GetUserByID c w)) = store w.
Proof.
  unfold handler.GetUserByID.
  destruct (String.eqb (fiber.Params c "id") "") eqn:E; [auto|].
  unfold userService.FindByID, userRepository.FindByID.
  destruct (sql.Query _ w) as [[u|e] w1] eqn:Q;
    pose proof (Query_result _ _ _ _ Q) as [S1 Hr]; cbn [fst snd];
    (split; [|exact S1]); [|auto].
  destruct Hr as [Hr|(e & He & _)]; [|discriminate].
  right. right.
  destruct (invalid_uuid [fiber.Params c "id"]); [discriminate|].
  destruct (find _ (users (store w))) as [r|] eqn:Hf; [|discriminate].
  apply find_some in Hf as [Hin Hid]. apply String.eqb_eq in Hid.
  exists r, u. split; [exact Hin|]. split; [exact Hid|].
  split; [auto|].
  unfold scanUser, rbind, scanString in Hr.
  destruct (r_email r), (r_profile_photo r), (r_created_by r),
    (r_updated_by r); inversion Hr; reflexivity.
Qed.



Lemma RequireAuth_store `{Vendor} cfg next c w :
  store (snd (middleware.RequireAuth cfg next c w)) = store w \/
  exists c', middleware.RequireAuth cfg next c w = next c' w.
Proof.
  unfold middleware.RequireAuth.
  destruct (String.eqb _ ""); [left; reflexivity|].
  rewrite ValidateJWT_unfold.
  destruct (jwt.Parse _ _ _); [right; eauto|left; reflexivity].
Qed.

(** X16: no read writes.  Logging in, listing users, fetching a user and
    listing products leave the committed store as it was, whatever they
    answer, and so does the middleware when it refuses; in particular a
    login does not record the time of the login in [last_login]. *)
Theorem reads_keep_store :
  forall (V : Vendor) (cfg : Config) (c : Ctx) (w : World),
    (forall body,
        store (snd (handler.LoginWithUserService cfg body c w)) = store w) /\
    (forall Atoi, store (snd (handler.ListUsers Atoi c w)) = store w) /\
    store (snd (handler.GetUserByID c w)) = store w /\
    store (snd (handler.GetAllProducts c w)) = store w /\
    (forall next,
        store (snd (middleware.RequireAuth cfg next c w)) = store w \/
        exists c', middleware.RequireAuth cfg next c w = next c' w).
Proof.
  intros V cfg c w. split; [|split; [|split; [|split]]].
  - intros [req|]; [|reflexivity].
    pose proof (Login_failure cfg req c w) as HL.
    rewrite Authenticate_unfold in HL.
    destruct (userRepository.FindByUsername _ w) as [[u|e] w1] eqn:F;
      apply Query_frame in F as [S1 _].
    + destruct (password.Verify _ _); rewrite HL; [exact S1|].
      destruct (jwt_SignedString _ _ _); exact S1.
    + rewrite HL. exact S1.
  - intros Atoi. unfold handler.ListUsers, userService.List, userRepository.List.
    destruct (sql.QueryRows _ _ w) as [[us|e] w1] eqn:Q;
      apply QueryRows_cases in Q as [S1 _]; exact S1.
  - apply GetUserByID_cases.
  - unfold handler.GetAllProducts, productService.FindAll,
      productRepository.SelectAll.
    destruct (sql.QueryRows _ _ w) as [[ps|e] w1] eqn:Q;
      apply QueryRows_cases in Q as [S1 _]; exact S1.
  - intros next. apply RequireAuth_store.
Qed.

Lemma scanUser_columns r u :
  scanUser r = Ok u ->
  ID u = r_id r /\ Username u = r_username r /\ Role u = r_role r /\
  PasswordHash u = r_password_hash r.
Proof.
  unfold scanUser, rbind, scanString.
  destruct (r_email r), (r_profile_photo r), (r_created_by r),
    (r_updated_by r); intros E; inversion E; subst; simpl; auto.
Qed.

(** X17: no login without the password.  When the login answers 200,
    the table holds a row whose username is, byte for byte, the username
    of the request without the white space around it; the first such
    row scans, and bcrypt accepted the password exactly as it was sent
    for the hash that row stores.  The token is signed for the username
    of that row at the time of the request, and the body carries the id,
    username, role and e-mail of that row. *)
Theorem login_only_with_password :
  forall (V : Vendor) (cfg : Config) (req : loginReq) (c : Ctx) (w w' : World)
         (r : Response),
    handler.LoginWithUserService cfg (Some req) c w = (Respond r, w') ->
    resp_status r = StatusOK ->
    exists row u token,
      find (fun x => String.eqb (r_username x)
                       (strings.TrimSpace (lr_Username req)))
           (users (store w)) = Some row /\
      scanUser row = Ok u /\
      bcrypt_CompareHashAndPassword (r_password_hash row) (lr_Password req)
      = None /\
      jwt_SignedString "HS256" (login_claims (r_username row) (clock w))
                       (JwtSecret cfg) = Ok token /\
      resp_body r
      = login_body token (r_id row) (r_username row) (r_role row) (Email u).
Proof.
  intros V cfg req c w w' r Run Hok.
  pose proof (Login_failure cfg req c w) as HL.
  rewrite Authenticate_unfold in HL.
  destruct (userRepository.FindByUsername _ w) as [[u|e] w1] eqn:F.
  - unfold password.Verify in HL.
    destruct (bcrypt_CompareHashAndPassword (PasswordHash u) (lr_Password req))
      as [e|] eqn:Hpw.
    + rewrite HL in Run. inversion Run; subst. discriminate.
    + pose proof (Query_frame _ _ _ _ F) as [_ Hclock].
      apply Query_result in F as [_ [F|(e & F & _)]]; [|discriminate].
      destruct (find _ (users (store w))) as [row|] eqn:Hf; [|discriminate].
      symmetry in F. apply scanUser_columns in F as Hcols.
      destruct Hcols as (Hid & Hname & Hrole & Hhash).
      rewrite Hclock, Hname in HL.
      destruct (jwt_SignedString _ _ _) as [token|e] eqn:Hsign;
        rewrite HL in Run; inversion Run; subst; [|discriminate].
      exists row, u, token. rewrite <- Hhash, <- Hid, <- Hrole.
      cbn [resp_body]. auto.
  - rewrite HL in Run. inversion Run; subst. discriminate.
Qed.

Lemma login_only_with_password_witness :
  exists row u token,
    find (fun x => String.eqb (r_username x) "admin") (users (store adminWorld))
    = Some row /\
    scanUser row = Ok u /\
    @bcrypt_CompareHashAndPassword exampleVendor (r_password_hash row)
      "admin123" = None /\
    @jwt_SignedString exampleVendor "HS256"
      (login_claims (r_username row) (clock adminWorld))
      (JwtSecret exampleConfig) = Ok token /\
    login_body "secret.admin" adminID "admin" "admin" "admin@luxtrack.com"
    = login_body token (r_id row) (r_username row) (r_role row) (Email u).
Proof.
  apply (login_only_with_password exampleVendor exampleConfig
           (mkLoginReq " admin " "admin123") emptyCtx adminWorld adminWorld
           (mkResponse StatusOK
              (login_body "secret.admin" adminID "admin" "admin"
                          "admin@luxtrack.com"))
           eq_refl eq_refl).
Defined.

(** White space of more than one byte is trimmed as well: a no-break
    space before the username and an ideographic space after it. *)
Example TrimSpace_unicode :
  strings.TrimSpace
    (String (ascii_of_nat 194) (String (ascii_of_nat 160) " admin")
     ++ String (ascii_of_nat 9)
          (String (ascii_of_nat 227)
             (String (ascii_of_nat 128) (String (ascii_of_nat 128) ""))))
  = "admin".
Proof. reflexivity. Qed.

(* ================================================================== *)
(** * Further properties: the transaction form *)
(* ================================================================== *)

Lemma or_default_filled detail d : d <> "" -> or_default detail d <> "".
Proof.
  unfold or_default. intros Hd.
  destruct (String.eqb detail "") eqn:E; [exact Hd|].
  apply String.eqb_neq, E.
Qed.

Lemma items_rebuilt {Num} (l : list (Item Num)) :
  map (fun item => mkItem (product_id item) (quantity item) (unit_price item)) l
  = l.
Proof.
  induction l as [|[p q u] l IH]; simpl; [|rewrite IH]; reflexivity.
Qed.

(** X18: what submitting the form leaves.  Whatever the backend does,
    after [handleSubmit] the form is no longer loading and its data and
    line items are as they were; [onSuccess] is called exactly when the
    error shown is empty, and then one POST was made and resolved, with
    the form's data and exactly the selected line items, an empty
    shipping method or note sent as null. *)
Theorem handleSubmit_leaves :
  forall (Num B : Type) (post : SubmitData Num -> B -> PostResult * B)
         (st : FormState Num) (b : B),
    let out := handleSubmit post st b in
    let st' := fst (fst out) in
    let called := snd out in
    loading st' = false /\
    formData st' = formData st /\
    selectedProducts st' = selectedProducts st /\
    (called = true <-> error_ st' = "") /\
    (called = true ->
     post (mkSubmitData (transaction_type (formData st))
                        (customer_id (formData st))
                        (payment_method (formData st))
                        (or_null (shipping_method (formData st)))
                        (or_null (notes (formData st)))
                        (selectedProducts st)) b
     = (Resolved, snd (fst out))).
Proof.
  intros Num B post st b. unfold handleSubmit. rewrite items_rebuilt.
  destruct (List.length (selectedProducts st) =? 0)%nat; cbn zeta.
  - simpl. repeat split; try discriminate.
  - destruct (post _ b) as [[|detail] b'] eqn:P; simpl.
    + repeat split; auto.
    + repeat split; try discriminate.
      intros H. exfalso. revert H. apply or_default_filled. discriminate.
Qed.

Lemma filteri_all {A} (l : list A) : forall start index,
  (index < start)%nat ->
  filteri (fun _ i => negb (Nat.eqb i index)) l start = l.
Proof.
  induction l as [|x l IH]; intros start index Hlt; simpl; [reflexivity|].
  destruct (Nat.eqb start index) eqn:E;
    [apply Nat.eqb_eq in E; lia|].
  simpl. rewrite IH by lia. reflexivity.
Qed.

Lemma filteri_remove {A} (l : list A) : forall start k,
  filteri (fun _ i => negb (Nat.eqb i (start + k))) l start
  = (firstn k l ++ skipn (S k) l)%list.
Proof.
  induction l as [|x l IH]; intros start k; simpl.
  - rewrite firstn_nil. reflexivity.
  - destruct k as [|k].
    + rewrite Nat.add_0_r, Nat.eqb_refl. simpl. apply filteri_all. lia.
    + destruct (Nat.eqb start (start + S k)) eqn:E;
        [apply Nat.eqb_eq in E; lia|].
      simpl. replace (start + S k)%nat with (S start + k)%nat by lia.
      rewrite IH. reflexivity.
Qed.

Lemma sum_items_app a b : sum_items (a ++ b) = sum_items a + sum_items b.
Proof. induction a as [|x a IH]; simpl; [|rewrite IH]; lia. Qed.

Lemma sum_items_split (l : list LineItem) : forall k,
  sum_items l
  = sum_items (firstn k l ++ skipn (S k) l)
    + match nth_error l k with
      | Some it => quantity it * unit_price it
      | None => 0
      end.
Proof.
  induction l as [|x l IH]; intros k.
  - destruct k; reflexivity.
  - destruct k as [|k].
    + simpl. ring.
    + change (skipn (S (S k)) (x :: l)) with (skipn (S k) l).
      cbn [firstn app nth_error sum_items]. rewrite (IH k) at 1. ring.
Qed.

Lemma calculateTotal_Z (st : FormState Z) :
  calculateTotal 0 Z.add Z.mul st = sum_items (selectedProducts st).
Proof. destruct st as [fd items l e]. apply calculateTotal_sum. Qed.

(** X19: adding and removing a line.  [addProduct] appends one line,
    with no product, quantity 1 and price 0, and the total shown stays
    what it was; [removeProduct] takes out the line at the index and no
    other, the total goes down by that line's quantity times its price,
    and an index past the end changes nothing. *)
Theorem lines_and_total :
  forall (st : FormState Z) (index : nat),
    selectedProducts (addProduct 0 1 st)
    = (selectedProducts st ++ [mkItem "" 1 0])%list /\
    calculateTotal 0 Z.add Z.mul (addProduct 0 1 st)
    = calculateTotal 0 Z.add Z.mul st /\
    selectedProducts (removeProduct index st)
    = (firstn index (selectedProducts st)
       ++ skipn (S index) (selectedProducts st))%list /\
    calculateTotal 0 Z.add Z.mul (removeProduct index st)
    = calculateTotal 0 Z.add Z.mul st
      - match nth_error (selectedProducts st) index with
        | Some it => quantity it * unit_price it
        | None => 0
        end /\
    ((List.length (selectedProducts st) <= index)%nat ->
     removeProduct index st = st) /\
    formData (removeProduct index st) = formData st.
Proof.
  intros st index.
  assert (Hrem : selectedProducts (removeProduct index st)
                 = (firstn index (selectedProducts st)
                    ++ skipn (S index) (selectedProducts st))%list).
  { unfold removeProduct, with_selectedProducts. cbn [selectedProducts].
    apply (filteri_remove (selectedProducts st) 0 index). }
  split; [reflexivity|]. split; [|split; [exact Hrem|split; [|split]]].
  - rewrite !calculateTotal_Z. unfold addProduct, with_selectedProducts.
    cbn [selectedProducts]. rewrite sum_items_app. simpl. lia.
  - rewrite !calculateTotal_Z, Hrem.
    rewrite (sum_items_split (selectedProducts st) index).
    unfold LineItem. ring.
  - intros Hge. destruct st as [fd items l e].
    unfold removeProduct, with_selectedProducts in *. cbn in *.
    f_equal. pose proof (filteri_remove items 0 index) as Hf.
    cbn [Nat.add] in Hf. rewrite Hf.
    rewrite firstn_all2 by lia. rewrite skipn_all2 by lia.
    apply app_nil_r.
  - reflexivity.
Qed.

Lemma nth_error_set_nth_same {A} (l : list A) : forall n x,
  (n < List.length l)%nat -> nth_error (set_nth n x l) n = Some x.
Proof.
  induction l as [|y l IH]; intros [|n] x Hn; simpl in *; try lia; auto.
  apply IH. lia.
Qed.

Lemma nth_error_set_nth_other {A} (l : list A) : forall n j x,
  j <> n -> nth_error (set_nth n x l) j = nth_error l j.
Proof.
  induction l as [|y l IH]; intros [|n] [|j] x Hj; simpl; auto; try congruence.
Qed.

Lemma num_or_truthy {Num} (truthy : Num -> bool) (parsed : option Num) (d : Num) :
  truthy d = true -> truthy (num_or truthy parsed d) = true.
Proof.
  intros Hd. unfold num_or. destruct parsed as [n|]; [|exact Hd].
  destruct (truthy n) eqn:E; [exact E|exact Hd].
Qed.

(** X20: editing a line.  [updateProductItem] throws exactly for an
    index past the end.  Otherwise it changes the line at the index and
    nothing else: a quantity becomes the number typed, or 1 when that is
    0 or no number, so that it is never 0; a price becomes the number
    typed, or 0; choosing a product sets the product and, when the
    product is among those listed, the price to its selling price, or to
    its purchase price when it has no selling price. *)
Theorem updateProductItem_effect :
  forall (Num : Type) (zero one : Num) (truthy : Num -> bool)
         (parseInt parseFloat : string -> option Num)
         (products : list (ListedProduct Num))
         (index : nat) (field value : string) (st : FormState Num),
    match updateProductItem zero one truthy parseInt parseFloat products
                            index field value st with
    | None => (List.length (selectedProducts st) <= index)%nat
    | Some st' =>
        formData st' = formData st /\
        List.length (selectedProducts st') = List.length (selectedProducts st) /\
        (forall j, j <> index ->
                   nth_error (selectedProducts st') j
                   = nth_error (selectedProducts st) j) /\
        exists item item',
          nth_error (selectedProducts st) index = Some item /\
          nth_error (selectedProducts st') index = Some item' /\
          (field = "quantity" ->
           product_id item' = product_id item /\
           unit_price item' = unit_price item /\
           quantity item' = num_or truthy (parseInt value) one /\
           (truthy one = true -> truthy (quantity item') = true)) /\
          (field = "unit_price" ->
           product_id item' = product_id item /\
           quantity item' = quantity item /\
           unit_price item' = num_or truthy (parseFloat value) zero) /\
          (field = "product_id" ->
           product_id item' = value /\
           quantity item' = quantity item /\
           unit_price item'
           = match find (fun p => String.eqb (lp_id p) value) products with
             | Some product => price_of truthy product
             | None => unit_price item
             end)
    end.
Proof.
  intros Num zero one truthy parseInt parseFloat products index field value st.
  unfold updateProductItem.
  destruct (nth_error (selectedProducts st) index) as [item|] eqn:Hn.
  - assert (Hlt : (index < List.length (selectedProducts st))%nat)
      by (apply nth_error_Some; congruence).
    cbn zeta. unfold with_selectedProducts. cbn [formData selectedProducts].
    split; [reflexivity|]. split; [apply length_set_nth|].
    split; [intros j Hj; apply nth_error_set_nth_other, Hj|].
    eexists item, _. split; [reflexivity|].
    split; [apply nth_error_set_nth_same, Hlt|].
    unfold set_field. split; [|split].
    + intros ->. cbn. repeat split. intros H1. apply num_or_truthy, H1.
    + intros ->. cbn. repeat split.
    + intros ->. cbn.
      destruct (find _ products); cbn; repeat split.
  - apply nth_error_None, Hn.
Qed.

(* ================================================================== *)
(** * Further properties: ImageUpload *)
(* ================================================================== *)

Lemma images_after_cases (images : list string) (P : list string -> Prop)
    (effects : list UploadEffect) : forall acc,
  (acc = images \/ P acc) ->
  (forall imgs, In (OnChange imgs) effects -> P imgs) ->
  images_after acc effects = images \/ P (images_after acc effects).
Proof.
  unfold images_after.
  induction effects as [|e effects IH]; intros acc Hacc Hall; simpl;
    [exact Hacc|].
  apply IH.
  - destruct e as [m|imgs]; [exact Hacc|].
    right. apply Hall. left. reflexivity.
  - intros imgs Hin. apply Hall. right. exact Hin.
Qed.

(** X21: one upload, one image at most.  Each reader that finishes
    calls [onChange] with the images the component was rendered with and
    its own file, so whichever readers finish and in whatever order, the
    parent ends with the images it had or with those and one file more,
    a file of at most 5 MB; the others are lost.  More than ten files
    chosen at once give an alert and nothing else, and [removeImage]
    takes out the image at the index and no other. *)
Theorem upload_adds_at_most_one :
  forall (images : list string) (files : list File),
    (forall effects,
        incl effects (handleImageUpload images files) ->
        images_after images effects = images \/
        exists file,
          In file files /\ file_size file <= 5 * 1024 * 1024 /\
          images_after images effects = (images ++ [file_dataURL file])%list) /\
    ((maxFiles < List.length files)%nat ->
     handleImageUpload images files = [Alert "Maximum 10 images allowed"]) /\
    (forall index,
        removeImage images index
        = OnChange (firstn index images ++ skipn (S index) images)%list).
Proof.
  intros images files. split; [|split].
  - intros effects Hincl.
    apply (images_after_cases images
             (fun imgs => exists file,
                  In file files /\ file_size file <= 5 * 1024 * 1024 /\
                  imgs = (images ++ [file_dataURL file])%list)).
    + left. reflexivity.
    + intros imgs Hin. apply Hincl in Hin.
      unfold handleImageUpload in Hin.
      destruct (maxFiles <? List.length files)%nat.
      * destruct Hin as [Hin|[]]. discriminate.
      * apply in_map_iff in Hin as (file & Hup & Hfile).
        unfold upload_one in Hup.
        destruct (5 * 1024 * 1024 <? file_size file) eqn:C; [discriminate|].
        apply Z.ltb_ge in C. inversion Hup. eauto.
  - intros Hmany. unfold handleImageUpload.
    apply Nat.ltb_lt in Hmany. rewrite Hmany. reflexivity.
  - intros index. unfold removeImage. f_equal.
    apply (filteri_remove images 0 index).
Qed.

(* ================================================================== *)
(** * Further properties: the configuration *)
(* ================================================================== *)

Lemma getEnv_filled env key fallback : fallback <> "" -> getEnv env key fallback <> "".
Proof.
  unfold getEnv. intros Hf. cbn zeta.
  destruct (String.eqb (env key) "") eqn:E; [exact Hf|].
  apply String.eqb_neq, E.
Qed.

(** X22: what [load] makes of the environment.  It ends the process
    exactly when DB_PORT, or 5432 in its place, is not a number.
    Otherwise a variable that is unset or set to the empty string gets
    its fallback, so that the name, environment and port of the
    application and the host, user and name of the database are never
    empty, while an unset JWT_SECRET leaves an empty signing secret and
    an unset DB_PASS an empty password. *)
Theorem load_fallbacks :
  forall (Atoi : string -> option Z) (env : Env),
    match load Atoi env with
    | Err _ => Atoi (getEnv env "DB_PORT" "5432") = None
    | Ok cfg =>
        Atoi (getEnv env "DB_PORT" "5432") = Some (DBPort cfg) /\
        AppName cfg <> "" /\ AppEnv cfg <> "" /\ AppPort cfg <> "" /\
        DBHost cfg <> "" /\ DBUser cfg <> "" /\ DBName cfg <> "" /\
        JwtSecret cfg = env "JWT_SECRET" /\
        DBPass cfg = env "DB_PASS" /\
        (env "APP_PORT" = "" -> AppPort cfg = "8080") /\
        (DebugLog cfg = true <-> env "DEBUG_LOG" = "true")
    end.
Proof.
  intros Atoi env. unfold load.
  destruct (Atoi (getEnv env "DB_PORT" "5432")) as [port|]; [|reflexivity].
  cbn [DBPort AppName AppEnv AppPort DBHost DBUser DBName JwtSecret DBPass
       DebugLog].
  split; [reflexivity|].
  repeat (split; [apply getEnv_filled; discriminate|]).
  assert (Hsame : forall key, getEnv env key "" = env key).
  { intros key. unfold getEnv. cbn zeta.
    destruct (String.eqb (env key) "") eqn:E; [|reflexivity].
    apply String.eqb_eq in E. congruence. }
  split; [apply Hsame|]. split; [apply Hsame|]. split.
  - intros Hp. unfold getEnv. rewrite Hp. reflexivity.
  - unfold getEnv. cbn zeta.
    destruct (String.eqb (env "DEBUG_LOG") "") eqn:E.
    + apply String.eqb_eq in E. rewrite E. simpl. split; discriminate.
    + apply String.eqb_eq.
Qed.

(** The configuration is loaded once.  After a first [Get] that
    loaded it, [Get] and [LoadConfig] return that same configuration
    whatever the environment has become since, so that [LoadConfig] is
    no fresh load. *)
Theorem LoadConfig_is_cached :
  forall (Atoi : string -> option Z) (env : Env),
    match Get Atoi env None with
    | (Ok cfg, st) =>
        load Atoi env = Ok cfg /\
        forall Atoi' env',
          LoadConfig Atoi' env' st = (Ok cfg, st) /\
          Get Atoi' env' st = (Ok cfg, st)
    | (Err e, st) => load Atoi env = Err e /\ st = None
    end.
Proof.
  intros Atoi env. unfold LoadConfig, Get.
  destruct (load Atoi env) as [cfg|e]; split; auto.
Qed.

(* ================================================================== *)
(** * Further properties: the handlers behind the middleware *)
(* ================================================================== *)

Lemma RequireAuth_step `{Vendor} cfg next c w :
  ((jwtutil.ExtractBearerToken (fiber.Get c "Authorization") = "" \/
    exists e,
      jwt.Parse (jwtutil.ExtractBearerToken (fiber.Get c "Authorization"))
                (JwtSecret cfg) (clock w) = Err e) /\
   exists message,
     middleware.RequireAuth cfg next c w = (unauthorized message, w)) \/
  (jwtutil.ExtractBearerToken (fiber.Get c "Authorization") <> "" /\
   exists token,
     jwt.Parse (jwtutil.ExtractBearerToken (fiber.Get c "Authorization"))
               (JwtSecret cfg) (clock w) = Ok token /\
     middleware.RequireAuth cfg next c w
     = next (fiber.SetLocals c "email" (email_claim (jwt.Claims token))) w).
Proof.
  unfold middleware.RequireAuth.
  destruct (String.eqb _ "") eqn:E.
  - left. apply String.eqb_eq in E. split; [left; exact E|].
    eexists; reflexivity.
  - rewrite ValidateJWT_unfold.
    destruct (jwt.Parse _ _ _) as [token|e] eqn:P.
    + right. split; [intros Z; rewrite Z in E; discriminate|].
      exists token. split; reflexivity.
    + left. split; [right; eauto|]. eexists; reflexivity.
Qed.

Lemma localEmail_set c v :
  handler.localEmail (fiber.SetLocals c "email" v)
  = match v with
    | JStr s => Ok s
    | _ => Err "interface conversion: interface {} is not string"
    end.
Proof. reflexivity. Qed.

Lemma CreateUser_panics `{Vendor} req c v w :
  panics (handler.CreateUser (Some req)) (fiber.SetLocals c "email" v) w
  <-> forall s, v <> JStr s.
Proof.
  unfold panics, handler.CreateUser. rewrite localEmail_set. split.
  - intros [msg Hp] s ->.
    destruct (userService.Create _ _ w) as [[u|e] w1]; discriminate.
  - intros Hv. destruct v; try (eexists; reflexivity).
    exfalso. apply (Hv s). reflexivity.
Qed.

Lemma UpdateUser_panics u c v w :
  panics (handler.UpdateUser (Some u)) (fiber.SetLocals c "email" v) w
  <-> forall s, v <> JStr s.
Proof.
  unfold panics, handler.UpdateUser. rewrite localEmail_set. split.
  - intros [msg Hp] s ->.
    destruct (userService.Update _ w) as [[[]|e] w1]; discriminate.
  - intros Hv. destruct v; try (eexists; reflexivity).
    exfalso. apply (Hv s). reflexivity.
Qed.

Lemma behind_auth_panics `{Vendor} cfg (h : Handler) c w :
  (forall v, panics h (fiber.SetLocals c "email" v) w
             <-> forall s, v <> JStr s) ->
  panics (middleware.RequireAuth cfg h) c w <-> no_string_email cfg c w.
Proof.
  intros Hh. unfold no_string_email. cbn zeta.
  destruct (RequireAuth_step cfg h c w)
    as [[Hc [m R]]|(Hne & token & P & R)].
  - split.
    + intros [msg Hp]. rewrite R in Hp. discriminate.
    + intros (Hne & token & P & _). exfalso.
      destruct Hc as [E|[e E]]; [contradiction|congruence].
  - split.
    + intros [msg Hp]. rewrite R in Hp.
      split; [exact Hne|]. exists token. split; [exact P|].
      apply Hh. exists msg. exact Hp.
    + intros (_ & token' & P' & Hv).
      assert (token' = token) by congruence. subst token'.
      destruct (proj2 (Hh _) Hv) as [msg Hp].
      exists msg. rewrite R. exact Hp.
Qed.

(** X23: when the handlers behind the middleware panic.  [CreateUser]
    and [UpdateUser] read the local "email" as a string, so behind
    [RequireAuth] a request with a body panics exactly when its token is
    accepted and carries no string under "email"; the world is then as
    it was.  A token that carries the claims of a login never does this,
    and a request the middleware refuses or one whose body does not
    parse never panics. *)
Theorem panic_behind_auth :
  forall (V : Vendor) (cfg : Config) (req : createUserReq) (u : User)
         (c : Ctx) (w : World),
    (panics (middleware.RequireAuth cfg (handler.CreateUser (Some req))) c w
     <-> no_string_email cfg c w) /\
    (panics (middleware.RequireAuth cfg (handler.UpdateUser (Some u))) c w
     <-> no_string_email cfg c w) /\
    (forall token email issued,
        jwt.Parse (jwtutil.ExtractBearerToken (fiber.Get c "Authorization"))
                  (JwtSecret cfg) (clock w) = Ok token ->
        jwt.Claims token = login_claims email issued ->
        ~ no_string_email cfg c w) /\
    (forall msg,
        fst (middleware.RequireAuth cfg (handler.CreateUser None) c w)
        <> Panic msg /\
        fst (middleware.RequireAuth cfg (handler.UpdateUser None) c w)
        <> Panic msg) /\
    (rejects cfg c w -> ~ no_string_email cfg c w).
Proof.
  intros V cfg req u c w. split; [|split; [|split; [|split]]].
  - apply behind_auth_panics. intros v. apply CreateUser_panics.
  - apply behind_auth_panics. intros v. apply UpdateUser_panics.
  - intros token email issued P Hc (_ & token' & P' & Hv).
    assert (token' = token) by congruence. subst token'.
    apply (Hv email). rewrite Hc. reflexivity.
  - intros msg. split.
    + destruct (RequireAuth_step cfg (handler.CreateUser None) c w)
        as [[_ [m R]]|(_ & token & _ & R)]; rewrite R; discriminate.
    + destruct (RequireAuth_step cfg (handler.UpdateUser None) c w)
        as [[_ [m R]]|(_ & token & _ & R)]; rewrite R; discriminate.
  - intros [m R] (Hne & token & P & Hv).
    specialize (R (fun _ w0 => (Panic "", w0))).
    unfold middleware.RequireAuth in R.
    destruct (String.eqb _ "") eqn:E;
      [apply String.eqb_eq in E; contradiction|].
    rewrite ValidateJWT_unfold, P in R. discriminate.
Qed.

(** A token without an e-mail claim, accepted by the middleware, makes
    the creation of a user panic. *)
Example token_without_email_panics :
  panics (@middleware.RequireAuth bareVendor exampleConfig
            (@handler.CreateUser bareVendor
               (Some (mkCreateUserReq "bob" "bob@example.com" "staff" ""
                                      "hunter2"))))
         (mkCtx [("Authorization", "Bearer secret.")] [] [] [])
         (quietWorld shop exampleIssued).
Proof. eexists. reflexivity. Qed.
